(** * frameport: frames, signals, callbacks and ports

    A shallow embedding of the frame / port core of the repository
    (IFrame.h, FrameBase.hpp, PortBase.hpp, FrameBus.hpp) and the
    properties its specification states about it.

    Conventions of the embedding:
    - the data block [data_] of a frame is the object representation of
      its [DataT]: a list of bytes, [sizeof(DataT)] of them;
    - a C++ exception is an explicit outcome: every method is a function
      from the state before the call to an outcome (a thrown exception or
      a returned value), the state after the call and the callback
      invocations the call performed;
    - every method body runs under one of the frame's locks, so a call is
      one atomic step; threads are modelled by interleaving such steps. *)

From Stdlib Require Import Strings.Byte ZArith DecimalString Sorting.Sorted.
From stdpp Require Import gmap strings list fin_maps.

Local Open Scope Z_scope.
Local Open Scope nat_scope.
Local Open Scope string_scope.
Local Open Scope list_scope.

(** ** Exceptions *)

(** The exception classes the code throws, with their [what()] text. *)
Inductive exn : Type :=
  | runtime_error (what : string)
  | logic_error (what : string)
  | bad_any_cast.

(** [std::to_string] on a [size_t]. *)
Definition to_string (n : nat) : string :=
  NilZero.string_of_uint (Nat.to_uint n).

(** The specification's names for the errors, as the code raises them. *)
Definition UnknownSignal (name : string) : exn :=
  runtime_error ("Unknown signal: " ++ name).

Definition SizeMismatch (got expected : nat) : exn :=
  runtime_error ("FrameBase: deserialize size mismatch: got " ++
                 to_string got ++ ", expected " ++ to_string expected).

Definition FrameNotFound : exn := runtime_error "Frame not found".

Definition TypeMismatch : exn := bad_any_cast.

Definition MisuseError : exn :=
  logic_error "Use addSnapshotCallback for Threaded policy".

(** ** Callback invocations

    What a subscriber observes: a Direct callback is called with the frame
    (it reads the data block), a Threaded callback is called by its worker
    with a snapshot and the snapshot's size. *)
Inductive Event : Type :=
  | DirectCall (id : Z) (tag : nat) (seen : list byte)
  | SnapshotCall (id : Z) (tag : nat) (snapshot : list byte) (sz : nat).

(** ** The monad of method calls: state, exceptions, invocations *)

Record Res (S A : Type) : Type := mkRes {
  outcome : exn + A;
  final : S;
  emitted : list Event
}.
Arguments mkRes {S A} _ _ _.
Arguments outcome {S A} _.
Arguments final {S A} _.
Arguments emitted {S A} _.

Definition M (S A : Type) : Type := S -> Res S A.

Definition ret {S A} (a : A) : M S A := fun s => mkRes (inr a) s [].

Definition throw {S A} (e : exn) : M S A := fun s => mkRes (inl e) s [].

Definition bind {S A B} (m : M S A) (k : A -> M S B) : M S B :=
  fun s =>
    let r := m s in
    match outcome r with
    | inl e => mkRes (inl e) (final r) (emitted r)
    | inr a =>
        let r' := k a (final r) in
        mkRes (outcome r') (final r') (emitted r ++ emitted r')
    end.

(** [try { m } catch (...) { h }]: the state reached when the exception
    was thrown is kept, as are the invocations already made. *)
Definition catch_all {S A} (m : M S A) (h : M S A) : M S A :=
  fun s =>
    let r := m s in
    match outcome r with
    | inl _ =>
        let r' := h (final r) in
        mkRes (outcome r') (final r') (emitted r ++ emitted r')
    | inr a => r
    end.

Definition get_state {S} : M S S := fun s => mkRes (inr s) s [].
Definition put_state {S} (s : S) : M S unit := fun _ => mkRes (inr tt) s [].

Declare Scope call_scope.
Delimit Scope call_scope with call.
Notation "x <- m ;; k" := (bind m (fun x => k))
  (at level 100, m at next level, right associativity) : call_scope.
Notation "m ;; k" := (bind m (fun _ => k))
  (at level 100, right associativity) : call_scope.
Local Open Scope call_scope.

(** ** Memory: byte blocks *)

(** [std::memcpy(dst, src, n)] on blocks that both hold at least [n]
    bytes: the first [n] bytes of [dst] become those of [src]. *)
Definition memcpy (dst src : list byte) (n : nat) : list byte :=
  take n src ++ drop n dst.

(** Reading and writing the bytes of a member at an offset of the block. *)
Definition load_at (off n : nat) (d : list byte) : list byte :=
  take n (drop off d).

Definition store_at (off : nat) (bs d : list byte) : list byte :=
  take off d ++ bs ++ drop (off + length bs) d.

(** ** Types of members and [std::any] *)

(** The member types of a trivially copyable [DataT], with their sizes
    on the 64-bit targets the example is built for; [typeid] equality is
    equality of these tags. *)
Inductive CType : Type :=
  | TBool | TChar
  | TInt8 | TUInt8 | TInt16 | TUInt16
  | TInt32 | TUInt32 | TInt64 | TUInt64
  | TFloat | TDouble.

#[global] Instance CType_eq_dec : EqDecision CType.
Proof. solve_decision. Defined.

Definition sizeof (t : CType) : nat :=
  match t with
  | TBool | TChar | TInt8 | TUInt8 => 1
  | TInt16 | TUInt16 => 2
  | TInt32 | TUInt32 | TFloat => 4
  | TInt64 | TUInt64 | TDouble => 8
  end.

(** A [std::any]: empty, or a value of some type, held by its object
    representation. *)
Inductive any : Type :=
  | AnyEmpty
  | AnyVal (ty : CType) (repr : list byte).

(** The [std::any] holds a value of type [ty]. *)
Definition holds (v : any) (ty : CType) : Prop :=
  exists repr, v = AnyVal ty repr /\ length repr = sizeof ty.

(** [std::any_cast<Field>(v)]. *)
Definition any_cast (ty : CType) (v : any) : exn + list byte :=
  match v with
  | AnyEmpty => inl bad_any_cast
  | AnyVal ty' repr => if decide (ty' = ty) then inr repr else inl bad_any_cast
  end.

(** A pointer to member [Field T::*]: the member's offset and type. *)
Record Member : Type := mkMember {
  m_offset : nat;
  m_type : CType
}.

(** [std::function<std::any()>] and [std::function<void(const std::any&)>]
    as [registerSignal] builds them: closures over the data block, which
    is their argument here; a setter may throw. *)
Abbreviation Getter := (list byte -> any) (only parsing).
Abbreviation Setter := (any -> list byte -> exn + list byte) (only parsing).

(** ** Callback entries (IFrame.h) *)

Inductive CallbackPolicy : Type := Direct | Threaded.

#[global] Instance CallbackPolicy_eq_dec : EqDecision CallbackPolicy.
Proof. solve_decision. Defined.

(** The target of a [std::function<void(const IFrame&)>].  The body of a
    callback is the subscriber's code, not the engine's: the closure is
    named by [cb_tag], each call of it is recorded as an [Event], and the
    call is taken to return. *)
Record Callback : Type := mkCallback {
  cb_tag : nat
}.

(** The target of a
    [std::function<void(const std::vector<uint8_t>&, size_t)>]; it runs
    on the subscription's worker thread. *)
Record SnapshotCallback : Type := mkSnapshotCallback {
  scb_tag : nat
}.

(** The state of a [std::thread]. *)
Inductive Thread : Type := Running | Exited | Joined.

Definition joinable (t : Thread) : bool :=
  match t with Joined => false | _ => true end.

Record ThreadedData : Type := mkThreadedData {
  worker : Thread;
  queue : list (list byte);
  stop : bool
}.

(** An empty [std::function] and a null [std::unique_ptr] are [None]. *)
Record CallbackEntry : Type := mkCallbackEntry {
  id : Z;
  cb : option Callback;
  snapshotCb : option SnapshotCallback;
  policy : CallbackPolicy;
  threadedData : option ThreadedData
}.

Definition set_threadedData (td : option ThreadedData) (e : CallbackEntry)
  : CallbackEntry :=
  mkCallbackEntry (id e) (cb e) (snapshotCb e) (policy e) td.

(** ** Frames (IFrame.h, FrameBase.hpp) *)

Record Frame : Type := mkFrame {
  instanceName_ : string;
  sizeof_DataT : nat;
  data_ : list byte;
  serializer_ : list byte -> list byte;
  deserializer_ : list byte -> list byte -> exn + list byte;
  getters_ : gmap string Getter;
  setters_ : gmap string Setter;
  callbacks_ : list CallbackEntry;
  nextCallbackId_ : Z
}.

Definition set_data (d : list byte) (fr : Frame) : Frame :=
  mkFrame (instanceName_ fr) (sizeof_DataT fr) d (serializer_ fr)
          (deserializer_ fr) (getters_ fr) (setters_ fr) (callbacks_ fr)
          (nextCallbackId_ fr).

Definition set_serializer (s : list byte -> list byte) (fr : Frame) : Frame :=
  mkFrame (instanceName_ fr) (sizeof_DataT fr) (data_ fr) s
          (deserializer_ fr) (getters_ fr) (setters_ fr) (callbacks_ fr)
          (nextCallbackId_ fr).

Definition set_deserializer (d : list byte -> list byte -> exn + list byte)
  (fr : Frame) : Frame :=
  mkFrame (instanceName_ fr) (sizeof_DataT fr) (data_ fr) (serializer_ fr)
          d (getters_ fr) (setters_ fr) (callbacks_ fr) (nextCallbackId_ fr).

Definition set_accessors (g : gmap string Getter) (s : gmap string Setter)
  (fr : Frame) : Frame :=
  mkFrame (instanceName_ fr) (sizeof_DataT fr) (data_ fr) (serializer_ fr)
          (deserializer_ fr) g s (callbacks_ fr) (nextCallbackId_ fr).

Definition set_callbacks (cbs : list CallbackEntry) (fr : Frame) : Frame :=
  mkFrame (instanceName_ fr) (sizeof_DataT fr) (data_ fr) (serializer_ fr)
          (deserializer_ fr) (getters_ fr) (setters_ fr) cbs
          (nextCallbackId_ fr).

Definition set_nextCallbackId (n : Z) (fr : Frame) : Frame :=
  mkFrame (instanceName_ fr) (sizeof_DataT fr) (data_ fr) (serializer_ fr)
          (deserializer_ fr) (getters_ fr) (setters_ fr) (callbacks_ fr) n.

(** The serializer and deserializer installed by the constructor. *)
Definition default_serializer (n : nat) : list byte -> list byte :=
  fun d => memcpy (repeat x00 n) d n.

Definition default_deserializer (n : nat)
  : list byte -> list byte -> exn + list byte :=
  fun d buf =>
    if decide (length buf <> n) then inl (SizeMismatch (length buf) n)
    else inr (memcpy d buf n).

(** [FrameBase<DataT, Derived>::FrameBase(instanceName)] for a [DataT] of
    [n] bytes, after [IFrame::IFrame()]. *)
Definition FrameBase (n : nat) (instanceName : string) : Frame :=
  mkFrame instanceName n (repeat x00 n)
          (default_serializer n) (default_deserializer n)
          ∅ ∅ [] 1%Z.

(** The lambdas [registerSignal] builds; [data_ptr] is the frame's own
    data block, the argument of the closure here. *)
Definition make_getter (m : Member) : Getter :=
  fun d => AnyVal (m_type m) (load_at (m_offset m) (sizeof (m_type m)) d).

Definition make_setter (m : Member) : Setter :=
  fun v d =>
    match any_cast (m_type m) v with
    | inl e => inl e
    | inr repr => inr (store_at (m_offset m) repr d)
    end.

Definition registerSignal (name : string) (member : Member) : M Frame unit :=
  fr <- get_state ;;
  put_state (set_accessors (<[name := make_getter member]> (getters_ fr))
                           (<[name := make_setter member]> (setters_ fr)) fr).

Definition getSignal (name : string) : M Frame any :=
  fr <- get_state ;;
  match getters_ fr !! name with
  | None => throw (UnknownSignal name)
  | Some getter => ret (getter (data_ fr))
  end.

(** A call [it->second(value)] of a registered setter. *)
Definition call_setter (setter : Setter) (value : any) : M Frame unit :=
  fr <- get_state ;;
  match setter value (data_ fr) with
  | inl e => throw e
  | inr d => put_state (set_data d fr)
  end.

Definition setSignal (name : string) (value : any) : M Frame unit :=
  fr <- get_state ;;
  match setters_ fr !! name with
  | None => throw (UnknownSignal name)
  | Some setter => call_setter setter value
  end.

(** ** The callback engine *)

(** [for (auto& entry : l) body(entry)]: the entries are updated in place
    and an exception leaves the loop. *)
Fixpoint for_each {E : Type} (body : E -> Res E unit) (l : list E)
  : Res (list E) unit :=
  match l with
  | [] => mkRes (inr tt) [] []
  | e :: rest =>
      let r := body e in
      match outcome r with
      | inl x => mkRes (inl x) (final r :: rest) (emitted r)
      | inr _ =>
          let r' := for_each body rest in
          mkRes (outcome r') (final r :: final r') (emitted r ++ emitted r')
      end
  end.

Definition push (snapshot : list byte) (td : ThreadedData) : ThreadedData :=
  mkThreadedData (worker td) (queue td ++ [snapshot]) (stop td).

(** The body of the loop of [notifyCallbacks] on one entry; [self] is
    [*this]. *)
Definition notify_entry (self : Frame) (entry : CallbackEntry)
  : Res CallbackEntry unit :=
  match policy entry, cb entry, snapshotCb entry, threadedData entry with
  | Direct, Some c, _, _ =>
      mkRes (inr tt) entry [DirectCall (id entry) (cb_tag c) (data_ self)]
  | Threaded, _, Some _, Some td =>
      let snapshot := serializer_ self (data_ self) in
      mkRes (inr tt) (set_threadedData (Some (push snapshot td)) entry) []
  | _, _, _, _ => mkRes (inr tt) entry []
  end.

Definition notifyCallbacks : M Frame unit :=
  fun fr =>
    let r := for_each (notify_entry fr) (callbacks_ fr) in
    mkRes (outcome r) (set_callbacks (final r) fr) (emitted r).

Definition setSignalWithPublish (name : string) (value : any) : M Frame unit :=
  fr <- get_state ;;
  match setters_ fr !! name with
  | None => throw (UnknownSignal name)
  | Some setter => call_setter setter value ;; notifyCallbacks
  end.

(** [nextCallbackId_.fetch_add(1)] on a [std::atomic<uint64_t>]. *)
Definition fetch_add_nextCallbackId : M Frame Z :=
  fr <- get_state ;;
  put_state (set_nextCallbackId ((nextCallbackId_ fr + 1) mod 2 ^ 64)%Z fr) ;;
  ret (nextCallbackId_ fr).

Definition push_back_callback (e : CallbackEntry) : M Frame unit :=
  fr <- get_state ;;
  put_state (set_callbacks (callbacks_ fr ++ [e]) fr).

Definition addCallback (c : option Callback) (p : CallbackPolicy) : M Frame Z :=
  i <- fetch_add_nextCallbackId ;;
  match p with
  | Threaded => throw MisuseError
  | Direct =>
      push_back_callback (mkCallbackEntry i c None p None) ;;
      ret i
  end.

Definition addSnapshotCallback (c : option SnapshotCallback) : M Frame Z :=
  i <- fetch_add_nextCallbackId ;;
  let threaded := mkThreadedData Running [] false in
  push_back_callback (mkCallbackEntry i None c Threaded (Some threaded)) ;;
  ret i.

(** *** The worker thread of a Threaded subscription *)

(** [if (!snapshot.empty()) cb(snapshot, snapshot.size())].  The worker
    holds copies of the subscription's [id] and callback; nothing is ever
    queued for a subscription whose callback is empty. *)
Definition deliver (i : Z) (c : option SnapshotCallback) (snapshot : list byte)
  : list Event :=
  match snapshot, c with
  | [], _ => []
  | _ :: _, Some f => [SnapshotCall i (scb_tag f) snapshot (length snapshot)]
  | _ :: _, None => []
  end.

(** One turn of the worker's [while (true)] loop.  With an empty queue
    the worker leaves the loop when [stop] is set and otherwise stays
    blocked on the condition variable; with a snapshot queued it pops the
    front and delivers it. *)
Definition worker_turn (i : Z) (c : option SnapshotCallback) (td : ThreadedData)
  : Res ThreadedData unit :=
  match worker td with
  | Running =>
      match queue td with
      | [] =>
          if stop td then mkRes (inr tt) (mkThreadedData Exited [] true) []
          else mkRes (inr tt) td []
      | snapshot :: rest =>
          mkRes (inr tt) (mkThreadedData Running rest (stop td))
                (deliver i c snapshot)
      end
  | _ => mkRes (inr tt) td []
  end.

Fixpoint worker_run (i : Z) (c : option SnapshotCallback) (turns : nat)
  (td : ThreadedData) : Res ThreadedData unit :=
  match turns with
  | 0 => mkRes (inr tt) td []
  | S n =>
      let r := worker_turn i c td in
      let r' := worker_run i c n (final r) in
      mkRes (inr tt) (final r') (emitted r ++ emitted r')
  end.

(** [worker.join()]: the caller waits until the worker has left its
    loop, which takes one turn per queued snapshot and one more. *)
Definition join (i : Z) (c : option SnapshotCallback) (td : ThreadedData)
  : Res ThreadedData unit :=
  let r := worker_run i c (S (length (queue td))) td in
  mkRes (inr tt)
        (mkThreadedData Joined (queue (final r)) (stop (final r)))
        (emitted r).

Definition stopAndJoin (entry : CallbackEntry) : Res CallbackEntry unit :=
  match policy entry, threadedData entry with
  | Threaded, Some td =>
      let td1 := mkThreadedData (worker td) (queue td) true in
      if joinable (worker td1) then
        let r := join (id entry) (snapshotCb entry) td1 in
        mkRes (inr tt) (set_threadedData (Some (final r)) entry) (emitted r)
      else mkRes (inr tt) (set_threadedData (Some td1) entry) []
  | _, _ => mkRes (inr tt) entry []
  end.

Definition stopThreadedCallbacks : M Frame unit :=
  fun fr =>
    let r := for_each stopAndJoin (callbacks_ fr) in
    mkRes (outcome r) (set_callbacks (final r) fr) (emitted r).

(** The loop of [removeCallback]: the first entry with the id is stopped,
    joined and erased. *)
Fixpoint erase_first (i : Z) (l : list CallbackEntry)
  : Res (list CallbackEntry) unit :=
  match l with
  | [] => mkRes (inr tt) [] []
  | e :: rest =>
      if decide (id e = i) then
        mkRes (inr tt) rest (emitted (stopAndJoin e))
      else
        let r := erase_first i rest in
        mkRes (inr tt) (e :: final r) (emitted r)
  end.

Definition removeCallback (i : Z) : M Frame unit :=
  fun fr =>
    let r := erase_first i (callbacks_ fr) in
    mkRes (inr tt) (set_callbacks (final r) fr) (emitted r).

(** A turn of the worker of subscription [i], as a step of the frame. *)
Fixpoint turn_of (i : Z) (l : list CallbackEntry)
  : Res (list CallbackEntry) unit :=
  match l with
  | [] => mkRes (inr tt) [] []
  | e :: rest =>
      match decide (id e = i), threadedData e with
      | left _, Some td =>
          let r := worker_turn i (snapshotCb e) td in
          mkRes (inr tt) (set_threadedData (Some (final r)) e :: rest)
                (emitted r)
      | _, _ =>
          let r := turn_of i rest in
          mkRes (inr tt) (e :: final r) (emitted r)
      end
  end.

Definition worker_step (i : Z) : M Frame unit :=
  fun fr =>
    let r := turn_of i (callbacks_ fr) in
    mkRes (inr tt) (set_callbacks (final r) fr) (emitted r).

(** ** FrameBase: raw access and (de)serialization *)

Definition size : M Frame nat :=
  fr <- get_state ;; ret (sizeof_DataT fr).

(** [func] reads the block; its answer stands for what it stores in its
    captures. *)
Definition readRawData {A} (func : list byte -> nat -> A) : M Frame A :=
  fr <- get_state ;;
  ret (func (data_ fr) (sizeof_DataT fr)).

(** [func] may write the block: it gives the block's new contents and
    what it stores in its captures. *)
Definition writeRawData {A} (func : list byte -> nat -> list byte * A)
  : M Frame A :=
  fr <- get_state ;;
  let '(d, a) := func (data_ fr) (sizeof_DataT fr) in
  put_state (set_data d fr) ;;
  ret a.

Definition setSerializer (s : list byte -> list byte) : M Frame unit :=
  fr <- get_state ;; put_state (set_serializer s fr).

Definition setDeserializer (d : list byte -> list byte -> exn + list byte)
  : M Frame unit :=
  fr <- get_state ;; put_state (set_deserializer d fr).

Definition serialize : M Frame (list byte) :=
  fr <- get_state ;; ret (serializer_ fr (data_ fr)).

Definition deserialize (raw : list byte) : M Frame unit :=
  fr <- get_state ;;
  match deserializer_ fr (data_ fr) raw with
  | inl e => throw e
  | inr d => put_state (set_data d fr)
  end.

Definition deserializeWithPublish (raw : list byte) : M Frame bool :=
  deserialize raw ;;
  notifyCallbacks ;;
  fr <- get_state ;;
  ret (bool_decide (length raw = sizeof_DataT fr)).

(** ** The frame bus and the ports (FrameBus.hpp, PortBase.hpp) *)

(** A [std::shared_ptr<IFrame>]: the address of a frame object in the
    store of frames; [nullptr] is [None] of [option FramePtr].  A shared
    pointer keeps its frame alive, so the addresses a bus or a port holds
    are addresses of the store. *)
Abbreviation FramePtr := nat (only parsing).

Record FrameBus : Type := mkFrameBus {
  bus_frames_ : gmap string FramePtr
}.

Record PortBase : Type := mkPortBase {
  port_instanceName_ : string;
  frames_ : gmap string FramePtr;
  callback_map_ : gmap Z FramePtr
}.

(** What a method of a port acts on: the port itself, the bus singleton
    and the frame objects. *)
Record Sys : Type := mkSys {
  this : PortBase;
  bus : FrameBus;
  heap : gmap FramePtr Frame
}.

#[global] Instance Frame_inhabited : Inhabited Frame :=
  populate (FrameBase 0 "").

(** A method call [frame->m(...)] through a shared pointer. *)
Definition on_frame {A} (p : FramePtr) (m : M Frame A) : M Sys A :=
  fun s =>
    let r := m (heap s !!! p) in
    mkRes (outcome r)
          (mkSys (this s) (bus s) (<[p := final r]> (heap s)))
          (emitted r).

Definition registerFrame (name : string) (frame : FramePtr) : M Sys unit :=
  s <- get_state ;;
  put_state (mkSys (this s)
                   (mkFrameBus (<[name := frame]> (bus_frames_ (bus s))))
                   (heap s)).

Definition getFrame (name : string) : M Sys (option FramePtr) :=
  s <- get_state ;; ret (bus_frames_ (bus s) !! name).

Definition unregisterFrame (name : string) : M Sys unit :=
  s <- get_state ;;
  put_state (mkSys (this s)
                   (mkFrameBus (delete name (bus_frames_ (bus s))))
                   (heap s)).

Definition findFrame (name : string) : M Sys (option FramePtr) :=
  s <- get_state ;; ret (frames_ (this s) !! name).

Definition set_frames (f : gmap string FramePtr) : M Sys unit :=
  s <- get_state ;;
  put_state (mkSys (mkPortBase (port_instanceName_ (this s)) f
                               (callback_map_ (this s)))
                   (bus s) (heap s)).

Definition set_callback_map (c : gmap Z FramePtr) : M Sys unit :=
  s <- get_state ;;
  put_state (mkSys (mkPortBase (port_instanceName_ (this s))
                               (frames_ (this s)) c)
                   (bus s) (heap s)).

Definition connectFrame (frameName : string) : M Sys bool :=
  s <- get_state ;;
  match frames_ (this s) !! frameName with
  | Some _ => ret true
  | None =>
      frame <- getFrame frameName ;;
      match frame with
      | None => ret false
      | Some p =>
          set_frames (<[frameName := p]> (frames_ (this s))) ;;
          ret true
      end
  end.

Definition disconnectFrame (frameName : string) : M Sys unit :=
  s <- get_state ;;
  set_frames (delete frameName (frames_ (this s))).

Definition setSignalToFrame (frameName signal : string) (value : any)
  : M Sys bool :=
  frame <- findFrame frameName ;;
  match frame with
  | None => ret false
  | Some p =>
      catch_all (on_frame p (setSignal signal value) ;; ret true)
                (ret false)
  end.

Definition setSignalToFrameWithPublish (frameName signal : string)
  (value : any) : M Sys bool :=
  frame <- findFrame frameName ;;
  match frame with
  | None => ret false
  | Some p =>
      catch_all (on_frame p (setSignalWithPublish signal value) ;; ret true)
                (ret false)
  end.

(** The lambda both raw setters hand to [writeRawData]; the pair's second
    component is the captured [ok]. *)
Definition raw_writer (data : list byte) (size : nat)
  : list byte -> nat -> list byte * bool :=
  fun buf bufsize =>
    if decide (size = bufsize) then (memcpy buf data size, true)
    else (buf, false).

Definition setRawDataToFrame (frameName : string) (data : list byte)
  (size : nat) : M Sys bool :=
  frame <- findFrame frameName ;;
  match frame with
  | None => ret false
  | Some p => on_frame p (writeRawData (raw_writer data size))
  end.

Definition setRawDataToFrameWithPublish (frameName : string)
  (data : list byte) (size : nat) : M Sys bool :=
  frame <- findFrame frameName ;;
  match frame with
  | None => ret false
  | Some p =>
      ok <- on_frame p (writeRawData (raw_writer data size)) ;;
      (if ok : bool then on_frame p notifyCallbacks else ret tt) ;;
      ret ok
  end.

Definition getSignalFromFrameAsAny (frameName signal : string) : M Sys any :=
  frame <- findFrame frameName ;;
  match frame with
  | None => throw FrameNotFound
  | Some p => on_frame p (getSignal signal)
  end.

(** [IPort::getSignalFromFrame<T>]. *)
Definition getSignalFromFrame (ty : CType) (frameName signal : string)
  : M Sys (list byte) :=
  v <- getSignalFromFrameAsAny frameName signal ;;
  match any_cast ty v with
  | inl e => throw e
  | inr repr => ret repr
  end.

(** The second component is what [cb] took from the block, [None] when
    it was not called. *)
Definition getRawDataFromFrame {A} (frameName : string)
  (cb : list byte -> nat -> A) : M Sys (bool * option A) :=
  frame <- findFrame frameName ;;
  match frame with
  | None => ret (false, None)
  | Some p => a <- on_frame p (readRawData cb) ;; ret (true, Some a)
  end.

(** The wrappers of the two subscribe methods: lambdas that forward the
    block, or the snapshot, and its size to the caller's [cb]. *)
Definition direct_wrapper (c : Callback) : Callback := c.

Definition snapshot_wrapper (c : SnapshotCallback) : SnapshotCallback := c.

Definition subscribeFrame (frameName : string) (c : SnapshotCallback)
  : M Sys Z :=
  frame <- findFrame frameName ;;
  match frame with
  | None => ret 0%Z
  | Some p =>
      i <- on_frame p (addSnapshotCallback (Some (snapshot_wrapper c))) ;;
      s <- get_state ;;
      set_callback_map (<[i := p]> (callback_map_ (this s))) ;;
      ret i
  end.

Definition subscribeFrameDirect (frameName : string) (c : Callback)
  : M Sys Z :=
  frame <- findFrame frameName ;;
  match frame with
  | None => ret 0%Z
  | Some p =>
      i <- on_frame p (addCallback (Some (direct_wrapper c)) Direct) ;;
      s <- get_state ;;
      set_callback_map (<[i := p]> (callback_map_ (this s))) ;;
      ret i
  end.

Definition unsubscribeFrame (callbackId : Z) : M Sys unit :=
  s <- get_state ;;
  match callback_map_ (this s) !! callbackId with
  | None => ret tt
  | Some p =>
      set_callback_map (delete callbackId (callback_map_ (this s))) ;;
      on_frame p (removeCallback callbackId)
  end.

(** ** The frame of the example (external_com.cpp)

    [struct MyData { int value; double timestamp; }
     __attribute__((packed))]: 12 bytes, [value] at offset 0 and
    [timestamp] at offset 4. *)
Definition MyData_value : Member := mkMember 0 TInt32.
Definition MyData_timestamp : Member := mkMember 4 TDouble.

Definition FrameImpl (instanceName : string) : Frame :=
  final ((registerSignal "value" MyData_value ;;
          registerSignal "timestamp" MyData_timestamp)
           (FrameBase 12 instanceName)).

(** * The vocabulary of the properties *)

(** ** Signals *)

(** Signal [s] is registered on the frame for the member [m]: its getter
    and setter are the ones [registerSignal] builds for [m]. *)
Definition registered (fr : Frame) (s : string) (m : Member) : Prop :=
  getters_ fr !! s = Some (make_getter m) /\
  setters_ fr !! s = Some (make_setter m).

(** No signal is registered under the name [u]. *)
Definition unregistered (fr : Frame) (u : string) : Prop :=
  getters_ fr !! u = None /\ setters_ fr !! u = None.

(** The member lies inside [DataT]. *)
Definition member_of_DataT (m : Member) (fr : Frame) : Prop :=
  m_offset m + sizeof (m_type m) <= sizeof_DataT fr.

(** The data block has the size of [DataT]. *)
Definition block_ok (fr : Frame) : Prop :=
  length (data_ fr) = sizeof_DataT fr.

(** ** Serialization *)

(** The frame still has the serializer and deserializer its constructor
    installed. *)
Definition default_codec (fr : Frame) : Prop :=
  serializer_ fr = default_serializer (sizeof_DataT fr) /\
  deserializer_ fr = default_deserializer (sizeof_DataT fr).

(** A deserializer that accepts a buffer of any length and writes
    nothing, as [setDeserializer] may install. *)
Definition tolerant_deserializer : list byte -> list byte -> exn + list byte :=
  fun d _ => inr d.

(** The example's frame after ["value"] was set to 42. *)
Definition frame42 : Frame :=
  final (setSignal "value" (AnyVal TInt32 [x2a; x00; x00; x00])
                   (FrameImpl "SharedFrame")).

(** ** Ports *)

(** The port holds frame [fr], at address [p], under the name
    [frameName]. *)
Definition connected (s : Sys) (frameName : string) (p : FramePtr)
  (fr : Frame) : Prop :=
  frames_ (this s) !! frameName = Some p /\ heap s !! p = Some fr.

(** The frame object at [p] after a call. *)
Definition frame_at (s : Sys) (p : FramePtr) : Frame := heap s !!! p.

(** The example's set-up: the frame ["SharedFrame"] is on the bus and
    the port ["Client1"] is connected to it. *)
Definition Client1 : Sys :=
  mkSys (mkPortBase "Client1" ∅ ∅) (mkFrameBus ∅)
        {[ 0 := FrameImpl "SharedFrame" ]}.

Definition example_sys : Sys :=
  final ((registerFrame "SharedFrame" 0 ;; connectFrame "SharedFrame")
           Client1).

(** ** Direct subscribers *)

(** The entries [notifyCallbacks] treats as Direct subscribers, with their
    ids, in the order of [callbacks_], which is the order of
    registration: [addCallback] appends. *)
Definition direct_subscriber (e : CallbackEntry) : option (Z * Callback) :=
  match policy e, cb e with
  | Direct, Some c => Some (id e, c)
  | _, _ => None
  end.

Definition direct_subscribers (fr : Frame) : list (Z * Callback) :=
  omap direct_subscriber (callbacks_ fr).

(** The callbacks [cs] are registered as Direct subscribers, one after
    the other. *)
Fixpoint register_all (cs : list Callback) (fr : Frame) : Frame :=
  match cs with
  | [] => fr
  | c :: rest => register_all rest (final (addCallback (Some c) Direct fr))
  end.

(** What one publish makes the Direct subscribers see. *)
Definition direct_calls (seen : list byte) (subs : list (Z * Callback))
  : list Event :=
  map (fun ic => DirectCall (fst ic) (cb_tag (snd ic)) seen) subs.

(** The example's port after two Direct subscriptions, tagged 7 and 8,
    with a Threaded one, tagged 9, between them. *)
Definition subscribed_sys : Sys :=
  final ((subscribeFrameDirect "SharedFrame" (mkCallback 7) ;;
          subscribeFrame "SharedFrame" (mkSnapshotCallback 9) ;;
          subscribeFrameDirect "SharedFrame" (mkCallback 8))
           example_sys).

(** The data block of the example's frame with ["value"] at 42, and at
    99. *)
Definition value42 : list byte :=
  [x2a; x00; x00; x00; x00; x00; x00; x00; x00; x00; x00; x00].

Definition value99 : list byte :=
  [x63; x00; x00; x00; x00; x00; x00; x00; x00; x00; x00; x00].

(** ** Callback ids *)

(** The calls of the callback engine a frame receives over its lifetime. *)
Inductive EngineCall : Type :=
  | AddCallback (c : option Callback) (p : CallbackPolicy)
  | AddSnapshotCallback (c : option SnapshotCallback)
  | RemoveCallback (i : Z)
  | NotifyCallbacks.

(** A call and the callback id it returns, if it returns one. *)
Definition engine_call (op : EngineCall) : M Frame (option Z) :=
  match op with
  | AddCallback c p => i <- addCallback c p ;; ret (Some i)
  | AddSnapshotCallback c => i <- addSnapshotCallback c ;; ret (Some i)
  | RemoveCallback i => removeCallback i ;; ret None
  | NotifyCallbacks => notifyCallbacks ;; ret None
  end.

(** The ids returned by a sequence of calls, in the order of the calls.  A
    call that throws ([addCallback] with the Threaded policy) returns no
    id, and the frame lives on. *)
Fixpoint returned_ids (ops : list EngineCall) (fr : Frame) : list Z :=
  match ops with
  | [] => []
  | op :: rest =>
      let r := engine_call op fr in
      match outcome r with
      | inr (Some i) => i :: returned_ids rest (final r)
      | _ => returned_ids rest (final r)
      end
  end.

(** A lifetime from construction on: two registrations rejected or
    removed between three that succeed. *)
Definition lifetime : list EngineCall :=
  [AddCallback (Some (mkCallback 7)) Direct;
   AddCallback (Some (mkCallback 8)) Threaded;
   AddSnapshotCallback (Some (mkSnapshotCallback 9));
   RemoveCallback 1;
   NotifyCallbacks;
   AddCallback (Some (mkCallback 7)) Direct].

(** ** Threaded subscribers *)

(** The entry [removeCallback] and the worker of subscription [i] act on:
    the first one with that id. *)
Fixpoint subscription (i : Z) (l : list CallbackEntry)
  : option CallbackEntry :=
  match l with
  | [] => None
  | e :: rest => if decide (id e = i) then Some e else subscription i rest
  end.

(** Subscription [i] of the frame is a Threaded one, as
    [addSnapshotCallback] registers it: its callback is [c] and the state
    of its queue and worker is [td]. *)
Definition threaded_subscription (fr : Frame) (i : Z) (c : SnapshotCallback)
  (td : ThreadedData) : Prop :=
  subscription i (callbacks_ fr)
  = Some (mkCallbackEntry i None (Some c) Threaded (Some td)).

(** The frame's data block is brought to [d] and the change is
    published. *)
Definition publish (d : list byte) : M Frame unit :=
  writeRawData (fun _ _ => (d, tt)) ;; notifyCallbacks.

Fixpoint publishes (ds : list (list byte)) : M Frame unit :=
  match ds with
  | [] => ret tt
  | d :: rest => publish d ;; publishes rest
  end.

(** The worker of subscription [i] runs for a number of turns. *)
Fixpoint worker_steps (i : Z) (turns : nat) : M Frame unit :=
  match turns with
  | 0 => ret tt
  | S n => worker_step i ;; worker_steps i n
  end.


(** ** Sequences of calls on one frame *)

(** The frame after a sequence of calls of the callback engine; a call
    that throws is caught by its caller and the frame lives on. *)
Fixpoint engine_calls (ops : list EngineCall) (fr : Frame) : Frame :=
  match ops with
  | [] => fr
  | op :: rest => engine_calls rest (final (engine_call op fr))
  end.

(** The ids of the entries of [callbacks_], in the order of the list. *)
Definition ids (fr : Frame) : list Z := map id (callbacks_ fr).

(** The entries of [callbacks_] carry increasing ids, all of them below
    the counter. *)
Definition ids_ordered (fr : Frame) : Prop :=
  StronglySorted Z.lt (ids fr) /\
  Forall (fun i => (i < nextCallbackId_ fr)%Z) (ids fr).

(** The calls that touch the data block of a frame. *)
Inductive DataCall : Type :=
  | CallRegisterSignal (name : string) (member : Member)
  | CallSetSignal (name : string) (value : any)
  | CallSetSignalWithPublish (name : string) (value : any)
  | CallDeserialize (raw : list byte)
  | CallDeserializeWithPublish (raw : list byte)
  | CallRawWrite (data : list byte) (size : nat)
  | CallNotifyCallbacks.

Definition data_call (c : DataCall) : M Frame unit :=
  match c with
  | CallRegisterSignal name member => registerSignal name member
  | CallSetSignal name value => setSignal name value
  | CallSetSignalWithPublish name value => setSignalWithPublish name value
  | CallDeserialize raw => deserialize raw
  | CallDeserializeWithPublish raw => deserializeWithPublish raw ;; ret tt
  | CallRawWrite data size => writeRawData (raw_writer data size) ;; ret tt
  | CallNotifyCallbacks => notifyCallbacks
  end.

Fixpoint data_calls (cs : list DataCall) (fr : Frame) : Frame :=
  match cs with
  | [] => fr
  | c :: rest => data_calls rest (final (data_call c fr))
  end.

(** What the types of the C++ arguments give: a pointer to member lies
    inside the [DataT] of [n] bytes, a [std::any] holds the bytes of a
    value of its type, a raw buffer has the [size] passed with it. *)
Definition any_ok (v : any) : Prop :=
  match v with
  | AnyEmpty => True
  | AnyVal ty repr => length repr = sizeof ty
  end.

Definition data_call_ok (n : nat) (c : DataCall) : Prop :=
  match c with
  | CallRegisterSignal _ member => m_offset member + sizeof (m_type member) <= n
  | CallSetSignal _ value | CallSetSignalWithPublish _ value => any_ok value
  | CallRawWrite data size => length data = size
  | _ => True
  end.

(** Every setter of the frame is one [registerSignal] built for a member
    inside [DataT]. *)
Definition setters_ok (fr : Frame) : Prop :=
  forall name setter,
    setters_ fr !! name = Some setter ->
    exists m, setter = make_setter m /\ member_of_DataT m fr.

(** What a frame keeps from its construction on: the block has the [n]
    bytes of [DataT], and, as long as nobody replaces them, the codec is
    the constructor's and the setters are those of [registerSignal]. *)
Definition frame_inv (n : nat) (fr : Frame) : Prop :=
  sizeof_DataT fr = n /\ block_ok fr /\ default_codec fr /\ setters_ok fr.

(** Two members that do not overlap. *)
Definition disjoint_members (m m' : Member) : Prop :=
  m_offset m + sizeof (m_type m) <= m_offset m' \/
  m_offset m' + sizeof (m_type m') <= m_offset m.

(** The entries of a frame without the state of their queues and
    workers: who is subscribed. *)
Definition subscriber_of (e : CallbackEntry)
  : Z * option Callback * option SnapshotCallback * CallbackPolicy :=
  (id e, cb e, snapshotCb e, policy e).

Definition subscribers (fr : Frame)
  : list (Z * option Callback * option SnapshotCallback * CallbackPolicy) :=
  map subscriber_of (callbacks_ fr).

(** The worker of the entry, if it has one, has been joined. *)
Definition worker_joined (e : CallbackEntry) : Prop :=
  match policy e, threadedData e with
  | Threaded, Some td => worker td = Joined /\ stop td = true
  | _, _ => True
  end.

(** ** Two ports *)

(** The system as another port object sees it: the same bus and the same
    frame objects. *)
Definition as_port (port : PortBase) (s : Sys) : Sys :=
  mkSys port (bus s) (heap s).

(** A port connected to two frames of the bus, ["SharedFrame"] and
    ["OtherFrame"], both freshly constructed. *)
Definition two_frames_sys : Sys :=
  final ((registerFrame "SharedFrame" 0 ;; registerFrame "OtherFrame" 1 ;;
          connectFrame "SharedFrame" ;; connectFrame "OtherFrame")
           (mkSys (mkPortBase "Client1" ∅ ∅) (mkFrameBus ∅)
                  {[ 0 := FrameImpl "SharedFrame";
                     1 := FrameImpl "OtherFrame" ]})).

(** ** IMethod (IMethod.h) *)

(** A [MethodFn], [std::function<std::any(const std::vector<std::any>&)>];
    the method may throw. *)
Abbreviation MethodFn := (list any -> exn + any) (only parsing).

Record IMethod : Type := mkIMethod {
  methods_ : gmap string MethodFn
}.

Definition MethodNotRegistered (methodName : string) : exn :=
  runtime_error ("IMethod: method '" ++ methodName ++ "' not registered.").

Definition invoke (methodName : string) (args : list any) : M IMethod any :=
  self <- get_state ;;
  match methods_ self !! methodName with
  | None => throw (MethodNotRegistered methodName)
  | Some method =>
      match method args with
      | inl e => throw e
      | inr v => ret v
      end
  end.

Definition registerMethod (methodName : string) (func : MethodFn)
  : M IMethod unit :=
  self <- get_state ;;
  put_state (mkIMethod (<[methodName := func]> (methods_ self))).

(** The names come in the iteration order of the [unordered_map], which
    is not specified; here it is the order of the finite map. *)
Definition methodList : M IMethod (list string) :=
  self <- get_state ;;
  ret (map fst (map_to_list (methods_ self))).

(** ** FactoryRegistry and AutoRegister (FactoryRegistry.hpp,
    AutoRegister.hpp) *)

(** A [Creator] builds an object of a class derived from [Base] from an
    instance name. *)
Record FactoryRegistry (Base : Type) : Type := mkFactoryRegistry {
  creators_ : gmap string (string -> Base)
}.
Arguments mkFactoryRegistry {Base} _.
Arguments creators_ {Base} _.

(** [creators_.emplace(typeName, creator).second]: a taken name keeps its
    creator. *)
Definition registerType {Base} (typeName : string) (creator : string -> Base)
  : M (FactoryRegistry Base) bool :=
  self <- get_state ;;
  match creators_ self !! typeName with
  | Some _ => ret false
  | None =>
      put_state (mkFactoryRegistry (<[typeName := creator]> (creators_ self))) ;;
      ret true
  end.

(** [instanceName.empty()]. *)
Definition empty_name (name : string) : bool :=
  match name with
  | EmptyString => true
  | String _ _ => false
  end.

(** The result is the [unique_ptr]: [None] is [nullptr]. *)
Definition create {Base} (typeName instanceName : string)
  : M (FactoryRegistry Base) (option Base) :=
  self <- get_state ;;
  match creators_ self !! typeName with
  | Some creator =>
      let realName := if empty_name instanceName then typeName
                      else instanceName in
      ret (Some (creator realName))
  | None => ret None
  end.

Definition contains {Base} (typeName : string)
  : M (FactoryRegistry Base) bool :=
  self <- get_state ;;
  ret (bool_decide (is_Some (creators_ self !! typeName))).

(** The initializer of [AutoRegister<Derived, Base>::registered_]: it
    registers [Derived] under its static name and is [true] whatever
    [registerType] answers. *)
Definition AutoRegister_registered_ {Base} (staticName : string)
  (createInstance : string -> Base) : M (FactoryRegistry Base) bool :=
  registerType staticName createInstance ;;
  ret true.

(** * Properties *)

(** ** Sequencing *)

Lemma bind_returns {S A B} (m : M S A) (k : A -> M S B) (s : S) (a : A) :
  outcome (m s) = inr a ->
  bind m k s =
  mkRes (outcome (k a (final (m s)))) (final (k a (final (m s))))
        (emitted (m s) ++ emitted (k a (final (m s)))).
Proof. intros H. unfold bind. rewrite H. reflexivity. Qed.

Lemma bind_run {S A B} (m : M S A) (k : A -> M S B) (s s' : S) (a : A)
  (evs : list Event) :
  m s = mkRes (inr a) s' evs ->
  bind m k s =
  mkRes (outcome (k a s')) (final (k a s')) (evs ++ emitted (k a s')).
Proof. intros H. unfold bind. rewrite H. reflexivity. Qed.

Lemma bind_run_throw {S A B} (m : M S A) (k : A -> M S B) (s s' : S)
  (e : exn) (evs : list Event) :
  m s = mkRes (inl e) s' evs ->
  bind m k s = mkRes (inl e) s' evs.
Proof. intros H. unfold bind. rewrite H. reflexivity. Qed.

Lemma res_eta {S A} (r : Res S A) :
  mkRes (outcome r) (final r) (emitted r) = r.
Proof. destruct r; reflexivity. Qed.

(** ** Byte blocks *)

Lemma length_store_at (off : nat) (bs d : list byte) :
  off + length bs <= length d ->
  length (store_at off bs d) = length d.
Proof.
  intros Hin. unfold store_at.
  rewrite !length_app, length_take, length_drop. lia.
Qed.

Lemma load_store_at (off : nat) (bs d : list byte) :
  off + length bs <= length d ->
  load_at off (length bs) (store_at off bs d) = bs.
Proof.
  intros Hin. unfold load_at, store_at.
  rewrite drop_app_length'; [| rewrite length_take; lia].
  apply take_app_length.
Qed.

Lemma memcpy_whole (dst src : list byte) :
  length dst = length src -> memcpy dst src (length src) = src.
Proof.
  intros Hlen. unfold memcpy.
  rewrite firstn_all, drop_ge by lia. apply app_nil_r.
Qed.

(** ** Signals *)

Lemma registerSignal_registered (fr : Frame) (s : string) (m : Member) :
  registered (final (registerSignal s m fr)) s m.
Proof. split; cbn; apply lookup_insert_eq. Qed.

Lemma registerSignal_other (fr : Frame) (s s' : string) (m m' : Member) :
  s <> s' -> registered fr s m ->
  registered (final (registerSignal s' m' fr)) s m.
Proof.
  intros Hne [Hg Hs]. split; cbn; rewrite lookup_insert_ne; auto.
Qed.

Lemma registerSignal_unregistered (fr : Frame) (u s : string) (m : Member) :
  u <> s -> unregistered fr u ->
  unregistered (final (registerSignal s m fr)) u.
Proof.
  intros Hne [Hg Hs]. split; cbn; rewrite lookup_insert_ne; auto.
Qed.

Lemma FrameBase_unregistered (n : nat) (name u : string) :
  unregistered (FrameBase n name) u.
Proof. split; apply lookup_empty. Qed.

Lemma FrameBase_block_ok (n : nat) (name : string) :
  block_ok (FrameBase n name).
Proof. unfold block_ok; cbn. apply repeat_length. Qed.

Lemma setSignal_registered (fr : Frame) (s : string) (m : Member) (repr : list byte) :
  registered fr s m ->
  setSignal s (AnyVal (m_type m) repr) fr =
  mkRes (inr tt) (set_data (store_at (m_offset m) repr (data_ fr)) fr) [].
Proof.
  intros [_ Hs]. unfold setSignal, bind, get_state; cbn. rewrite Hs.
  unfold call_setter, bind, get_state, make_setter, any_cast; cbn.
  destruct (decide (m_type m = m_type m)); [reflexivity | congruence].
Qed.

Lemma getSignal_registered (fr : Frame) (s : string) (m : Member) :
  getters_ fr !! s = Some (make_getter m) ->
  getSignal s fr = mkRes (inr (make_getter m (data_ fr))) fr [].
Proof.
  intros Hg. unfold getSignal, bind, get_state; cbn. rewrite Hg. reflexivity.
Qed.

(** C1: after [setSignal(s, v)] with a value of the field's type,
    [getSignal(s)] returns [v], for every signal [s] registered on the
    frame by [registerSignal]. *)
Theorem set_then_get_signal
  (fr : Frame) (s : string) (m : Member) (v : any) :
  registered fr s m ->
  member_of_DataT m fr ->
  block_ok fr ->
  holds v (m_type m) ->
  outcome ((setSignal s v ;; getSignal s) fr) = inr v.
Proof.
  intros Hreg Hin Hblk (repr & -> & Hlen).
  unfold bind at 1. rewrite (setSignal_registered _ _ _ _ Hreg).
  cbn [outcome final emitted].
  rewrite (getSignal_registered _ s m) by apply Hreg.
  cbn. unfold make_getter. f_equal. f_equal.
  rewrite <- Hlen. apply load_store_at.
  unfold member_of_DataT, block_ok in *. lia.
Qed.

(** The signal ["value"] of the example's frame, set to the [int] 42. *)
Lemma set_then_get_signal_witness :
  outcome ((setSignal "value" (AnyVal TInt32 [x2a; x00; x00; x00]) ;;
            getSignal "value") (FrameImpl "SharedFrame"))
  = inr (AnyVal TInt32 [x2a; x00; x00; x00]).
Proof.
  apply (set_then_get_signal (FrameImpl "SharedFrame") "value" MyData_value).
  - split; reflexivity.
  - unfold member_of_DataT; cbn; lia.
  - reflexivity.
  - exists [x2a; x00; x00; x00]. split; reflexivity.
Defined.

(** The block keeps the size of [DataT] when a signal is set. *)
Lemma setSignal_block_ok (fr : Frame) (s : string) (m : Member) (v : any) :
  registered fr s m ->
  member_of_DataT m fr ->
  block_ok fr ->
  holds v (m_type m) ->
  block_ok (final (setSignal s v fr)).
Proof.
  intros Hreg Hin Hblk (repr & -> & Hlen).
  rewrite (setSignal_registered _ _ _ _ Hreg).
  unfold block_ok, member_of_DataT in *; cbn.
  rewrite length_store_at; lia.
Qed.

Lemma getSignal_unregistered (fr : Frame) (u : string) :
  unregistered fr u ->
  getSignal u fr = mkRes (inl (UnknownSignal u)) fr [].
Proof.
  intros [Hg _]. unfold getSignal, bind, get_state; cbn.
  rewrite Hg. reflexivity.
Qed.

Lemma setSignal_unregistered (fr : Frame) (u : string) (v : any) :
  unregistered fr u ->
  setSignal u v fr = mkRes (inl (UnknownSignal u)) fr [].
Proof.
  intros [_ Hs]. unfold setSignal, bind, get_state; cbn.
  rewrite Hs. reflexivity.
Qed.

(** C3: on a name that was never registered, [getSignal] and [setSignal]
    both fail with [UnknownSignal] and leave the frame, its data block
    included, as it was. *)
Theorem unknown_signal_fails (fr : Frame) (u : string) (v : any) :
  unregistered fr u ->
  (outcome (getSignal u fr) = inl (UnknownSignal u) /\
   final (getSignal u fr) = fr /\
   data_ (final (getSignal u fr)) = data_ fr) /\
  (outcome (setSignal u v fr) = inl (UnknownSignal u) /\
   final (setSignal u v fr) = fr /\
   data_ (final (setSignal u v fr)) = data_ fr).
Proof.
  intros Hun.
  rewrite (getSignal_unregistered _ _ Hun), (setSignal_unregistered _ _ v Hun).
  repeat split.
Qed.

Lemma unknown_signal_fails_witness :
  (outcome (getSignal "speed" (FrameImpl "SharedFrame"))
     = inl (UnknownSignal "speed") /\
   final (getSignal "speed" (FrameImpl "SharedFrame"))
     = FrameImpl "SharedFrame" /\
   data_ (final (getSignal "speed" (FrameImpl "SharedFrame")))
     = data_ (FrameImpl "SharedFrame")) /\
  (outcome (setSignal "speed" AnyEmpty (FrameImpl "SharedFrame"))
     = inl (UnknownSignal "speed") /\
   final (setSignal "speed" AnyEmpty (FrameImpl "SharedFrame"))
     = FrameImpl "SharedFrame" /\
   data_ (final (setSignal "speed" AnyEmpty (FrameImpl "SharedFrame")))
     = data_ (FrameImpl "SharedFrame")).
Proof.
  apply (unknown_signal_fails (FrameImpl "SharedFrame") "speed" AnyEmpty).
  split; reflexivity.
Defined.

(** ** Serialization *)

Lemma FrameBase_default_codec (n : nat) (name : string) :
  default_codec (FrameBase n name).
Proof. split; reflexivity. Qed.

Lemma default_serializer_copy (n : nat) (d : list byte) :
  length d = n -> default_serializer n d = d.
Proof.
  intros <-. unfold default_serializer.
  apply memcpy_whole, repeat_length.
Qed.

Lemma default_deserializer_copy (n : nat) (d buf : list byte) :
  length d = n -> length buf = n -> default_deserializer n d buf = inr buf.
Proof.
  intros Hd Hb. unfold default_deserializer.
  destruct (decide (length buf <> n)) as [Hne | _]; [congruence |].
  f_equal. rewrite <- Hb. apply memcpy_whole. congruence.
Qed.

Lemma default_deserializer_reject (n : nat) (d buf : list byte) :
  length buf <> n ->
  default_deserializer n d buf = inl (SizeMismatch (length buf) n).
Proof.
  intros Hne. unfold default_deserializer.
  destruct (decide (length buf <> n)); [reflexivity | contradiction].
Qed.

(** [sizeof(DataT)] is at least 1 for every [DataT], so a snapshot taken
    by the default serializer is never empty. *)
Lemma default_serializer_nonempty (n : nat) (d : list byte) :
  0 < n -> length d = n -> default_serializer n d <> [].
Proof.
  intros Hpos Hlen. rewrite default_serializer_copy by exact Hlen.
  destruct d; [cbn in Hlen; lia | discriminate].
Qed.

Lemma serialize_default (fr : Frame) :
  default_codec fr -> block_ok fr ->
  serialize fr = mkRes (inr (data_ fr)) fr [].
Proof.
  intros [Hs _] Hblk. unfold serialize, bind, get_state; cbn.
  rewrite Hs, default_serializer_copy by exact Hblk. reflexivity.
Qed.

Lemma serialize_run (fr : Frame) :
  serialize fr = mkRes (inr (serializer_ fr (data_ fr))) fr [].
Proof. reflexivity. Qed.

Lemma deserialize_default_reject (fr : Frame) (buf : list byte) :
  default_codec fr ->
  length buf <> sizeof_DataT fr ->
  deserialize buf fr
  = mkRes (inl (SizeMismatch (length buf) (sizeof_DataT fr))) fr [].
Proof.
  intros [_ Hd] Hne. unfold deserialize, bind, get_state; cbn.
  rewrite Hd, default_deserializer_reject by exact Hne. reflexivity.
Qed.

(** C4: with the default deserializer, [deserialize(buf)] on a buffer
    whose length is not the fixed data size fails with [SizeMismatch] and
    leaves the frame, its data block included, as it was. *)
Theorem deserialize_size_mismatch (fr : Frame) (buf : list byte) :
  default_codec fr ->
  length buf <> sizeof_DataT fr ->
  outcome (deserialize buf fr)
    = inl (SizeMismatch (length buf) (sizeof_DataT fr)) /\
  final (deserialize buf fr) = fr /\
  data_ (final (deserialize buf fr)) = data_ fr.
Proof.
  intros Hdef Hne. rewrite (deserialize_default_reject _ _ Hdef Hne).
  repeat split.
Qed.

Lemma deserialize_size_mismatch_witness :
  outcome (deserialize [x01; x02; x03] (FrameImpl "SharedFrame"))
    = inl (SizeMismatch 3 12) /\
  final (deserialize [x01; x02; x03] (FrameImpl "SharedFrame"))
    = FrameImpl "SharedFrame" /\
  data_ (final (deserialize [x01; x02; x03] (FrameImpl "SharedFrame")))
    = data_ (FrameImpl "SharedFrame").
Proof.
  apply (deserialize_size_mismatch (FrameImpl "SharedFrame") [x01; x02; x03]).
  - split; reflexivity.
  - cbn; lia.
Defined.

(** C8: with the default serializer and deserializer, [serialize()]
    yields a verbatim copy of the data block, [sizeof(DataT)] bytes long,
    and [deserialize] of that buffer succeeds and leaves the data block
    byte for byte as it was. *)
Theorem deserialize_serialize (fr : Frame) :
  default_codec fr ->
  block_ok fr ->
  exists raw,
    outcome (serialize fr) = inr raw /\
    raw = data_ fr /\
    length raw = sizeof_DataT fr /\
    outcome ((raw <- serialize ;; deserialize raw) fr) = inr tt /\
    data_ (final ((raw <- serialize ;; deserialize raw) fr)) = data_ fr.
Proof.
  intros Hdef Hblk. exists (data_ fr). unfold bind.
  rewrite serialize_default by assumption. cbn [outcome final emitted].
  destruct Hdef as [_ Hd].
  unfold deserialize, bind, get_state; cbn.
  rewrite Hd, default_deserializer_copy by (exact Hblk || reflexivity).
  cbn. auto.
Qed.

Lemma deserialize_serialize_witness :
  exists raw,
    outcome (serialize frame42) = inr raw /\
    raw = data_ frame42 /\
    length raw = sizeof_DataT frame42 /\
    outcome ((raw <- serialize ;; deserialize raw) frame42) = inr tt /\
    data_ (final ((raw <- serialize ;; deserialize raw) frame42))
      = data_ frame42.
Proof.
  apply (deserialize_serialize frame42).
  - split; reflexivity.
  - reflexivity.
Defined.

(** ** Notification *)

Lemma for_each_all_return {E : Type} (body : E -> Res E unit) (l : list E) :
  Forall (fun e => outcome (body e) = inr tt) l ->
  for_each body l =
  mkRes (inr tt) (map (fun e => final (body e)) l)
        (flat_map (fun e => emitted (body e)) l).
Proof.
  induction 1 as [| e l He _ IH]; cbn; [reflexivity |].
  rewrite He, IH. reflexivity.
Qed.

(** [notifyCallbacks] changes nothing of a frame but its subscriptions. *)
Lemma notifyCallbacks_frame (fr : Frame) :
  final (notifyCallbacks fr)
  = set_callbacks (callbacks_ (final (notifyCallbacks fr))) fr.
Proof. reflexivity. Qed.

Lemma notifyCallbacks_sizeof (fr : Frame) :
  sizeof_DataT (final (notifyCallbacks fr)) = sizeof_DataT fr.
Proof. reflexivity. Qed.

Lemma notify_entry_returns (self : Frame) (e : CallbackEntry) :
  outcome (notify_entry self e) = inr tt.
Proof.
  unfold notify_entry.
  destruct (policy e), (cb e), (snapshotCb e), (threadedData e); reflexivity.
Qed.

Lemma notifyCallbacks_run (fr : Frame) :
  notifyCallbacks fr =
  mkRes (inr tt)
        (set_callbacks
           (map (fun e => final (notify_entry fr e)) (callbacks_ fr)) fr)
        (flat_map (fun e => emitted (notify_entry fr e)) (callbacks_ fr)).
Proof.
  unfold notifyCallbacks. rewrite for_each_all_return; [reflexivity |].
  apply Forall_forall. intros e _. apply notify_entry_returns.
Qed.

Lemma notifyCallbacks_returns (fr : Frame) :
  outcome (notifyCallbacks fr) = inr tt.
Proof. rewrite notifyCallbacks_run. reflexivity. Qed.

Lemma deserialize_default_ok (fr : Frame) (raw : list byte) :
  default_codec fr -> block_ok fr -> length raw = sizeof_DataT fr ->
  deserialize raw fr = mkRes (inr tt) (set_data raw fr) [].
Proof.
  intros [_ Hd] Hblk Hlen. unfold deserialize, bind, get_state; cbn.
  rewrite Hd, default_deserializer_copy by assumption. reflexivity.
Qed.

(** The block keeps the size of [DataT] under the default deserializer,
    whether it accepts the buffer or not. *)
Lemma deserialize_block_ok (fr : Frame) (raw : list byte) :
  default_codec fr -> block_ok fr -> block_ok (final (deserialize raw fr)).
Proof.
  intros Hdef Hblk.
  destruct (decide (length raw = sizeof_DataT fr)) as [Hlen | Hne].
  - rewrite deserialize_default_ok by assumption. exact Hlen.
  - rewrite deserialize_default_reject by assumption. exact Hblk.
Qed.

(** C2, as the code has it: with the default deserializer a buffer of the
    wrong length makes [deserializeWithPublish] fail with [SizeMismatch]:
    nothing is written, nobody is notified and no boolean comes back; a
    buffer of the fixed size is written, the subscribers are notified
    and [true] is returned.  With any deserializer, a boolean that is
    returned says whether the length matched. *)
Theorem deserializeWithPublish_outcome (fr : Frame) (raw : list byte) :
  (forall b : bool,
     outcome (deserializeWithPublish raw fr) = inr b ->
     b = bool_decide (length raw = sizeof_DataT fr)) /\
  (default_codec fr -> length raw <> sizeof_DataT fr ->
     deserializeWithPublish raw fr
     = mkRes (inl (SizeMismatch (length raw) (sizeof_DataT fr))) fr []) /\
  (default_codec fr -> block_ok fr -> length raw = sizeof_DataT fr ->
     let r := notifyCallbacks (set_data raw fr) in
     deserializeWithPublish raw fr = mkRes (inr true) (final r) (emitted r)).
Proof.
  split; [| split].
  - intros b. unfold deserializeWithPublish, bind at 1.
    destruct (outcome (deserialize raw fr)) eqn:Hd; [discriminate |].
    assert (Hsz : sizeof_DataT (final (deserialize raw fr)) = sizeof_DataT fr).
    { revert Hd. unfold deserialize, bind, get_state; cbn.
      destruct (deserializer_ fr (data_ fr) raw); cbn; [discriminate | auto]. }
    cbn [outcome final emitted]. unfold bind at 1.
    destruct (outcome (notifyCallbacks _)); [discriminate |].
    unfold bind, get_state, ret; cbn [outcome final emitted].
    rewrite notifyCallbacks_sizeof, Hsz. congruence.
  - intros Hdef Hne. unfold deserializeWithPublish.
    apply bind_run_throw, deserialize_default_reject; assumption.
  - intros Hdef Hblk Hlen r. unfold deserializeWithPublish.
    rewrite (bind_returns _ _ _ tt)
      by (rewrite deserialize_default_ok by assumption; reflexivity).
    rewrite deserialize_default_ok by assumption.
    cbn [outcome final emitted app]. fold r.
    rewrite (bind_returns _ _ _ tt) by apply notifyCallbacks_returns.
    fold r. unfold bind, get_state, ret; cbn [outcome final emitted].
    rewrite app_nil_r. f_equal. f_equal.
    unfold r. rewrite notifyCallbacks_sizeof.
    apply bool_decide_eq_true_2. exact Hlen.
Qed.

(** C2, as stated, fails: the example's frame (12 bytes) given an empty
    buffer does not return [false]; it throws. *)
Lemma deserializeWithPublish_mismatch_throws :
  outcome (deserializeWithPublish [] (FrameImpl "SharedFrame"))
    = inl (SizeMismatch 0 12) /\
  outcome (deserializeWithPublish [] (FrameImpl "SharedFrame"))
    <> inr false.
Proof. split; [reflexivity | discriminate]. Qed.

(** The boolean is [false] only behind a deserializer that lets a buffer
    of the wrong length pass. *)
Lemma deserializeWithPublish_tolerant :
  outcome ((setDeserializer tolerant_deserializer ;;
            deserializeWithPublish [x07]) (FrameImpl "SharedFrame"))
  = inr false.
Proof. reflexivity. Qed.

Lemma deserializeWithPublish_outcome_witness :
  deserializeWithPublish [x07] (FrameImpl "SharedFrame")
    = mkRes (inl (SizeMismatch 1 12)) (FrameImpl "SharedFrame") [] /\
  outcome (deserializeWithPublish value42 (FrameImpl "SharedFrame"))
    = inr true /\
  data_ (final (deserializeWithPublish value42 (FrameImpl "SharedFrame")))
    = value42.
Proof.
  assert (Hdef : default_codec (FrameImpl "SharedFrame"))
    by (split; reflexivity).
  destruct (deserializeWithPublish_outcome (FrameImpl "SharedFrame") [x07])
    as (_ & Hthrow & _).
  destruct (deserializeWithPublish_outcome (FrameImpl "SharedFrame") value42)
    as (_ & _ & Hwrite).
  split; [apply Hthrow; [exact Hdef | cbn; lia] |].
  rewrite Hwrite; [split; reflexivity | exact Hdef | reflexivity | reflexivity].
Defined.

(** ** Ports *)

Lemma on_frame_at {A} (s : Sys) (p : FramePtr) (fr : Frame) (m : M Frame A) :
  heap s !! p = Some fr ->
  on_frame p m s =
  mkRes (outcome (m fr))
        (mkSys (this s) (bus s) (<[p := final (m fr)]> (heap s)))
        (emitted (m fr)).
Proof.
  intros Hp. unfold on_frame.
  rewrite (lookup_total_correct _ _ _ Hp). reflexivity.
Qed.

Lemma on_frame_same {A} (s : Sys) (p : FramePtr) (fr : Frame) (m : M Frame A) :
  heap s !! p = Some fr -> final (m fr) = fr ->
  final (on_frame p m s) = s.
Proof.
  intros Hp Hsame. rewrite (on_frame_at _ _ _ _ Hp). cbn.
  rewrite Hsame, insert_id by exact Hp. destruct s; reflexivity.
Qed.

Lemma findFrame_run (s : Sys) (frameName : string) :
  findFrame frameName s = mkRes (inr (frames_ (this s) !! frameName)) s [].
Proof. reflexivity. Qed.

Lemma set_data_same (fr : Frame) : set_data (data_ fr) fr = fr.
Proof. destruct fr; reflexivity. Qed.

Lemma writeRawData_returns {A} (func : list byte -> nat -> list byte * A)
  (fr : Frame) :
  exists a, outcome (writeRawData func fr) = inr a.
Proof.
  unfold writeRawData, bind, get_state; cbn.
  destruct (func (data_ fr) (sizeof_DataT fr)) as [d a]. cbn. eauto.
Qed.

Lemma writeRawData_mismatch (fr : Frame) (data : list byte) (n : nat) :
  n <> sizeof_DataT fr ->
  writeRawData (raw_writer data n) fr = mkRes (inr false) fr [].
Proof.
  intros Hne. unfold writeRawData, raw_writer, bind, get_state; cbn.
  destruct (decide (n = sizeof_DataT fr)); [contradiction |].
  cbn. rewrite set_data_same. reflexivity.
Qed.

Lemma writeRawData_match (fr : Frame) (data : list byte) :
  block_ok fr -> length data = sizeof_DataT fr ->
  writeRawData (raw_writer data (length data)) fr
  = mkRes (inr true) (set_data data fr) [].
Proof.
  intros Hblk Hlen. unfold writeRawData, raw_writer, bind, get_state; cbn.
  destruct (decide (length data = sizeof_DataT fr)); [| contradiction].
  cbn. rewrite memcpy_whole by (unfold block_ok in Hblk; congruence).
  reflexivity.
Qed.

(** A guarded call [try { m; return true; } catch (...) { return false; }]
    returns a boolean whatever [m] does. *)
Lemma guarded_returns {S A} (m : M S A) (s : S) :
  outcome (catch_all (m ;; ret true) (ret false) s)
  = inr (match outcome (m s) with inl _ => false | inr _ => true end).
Proof.
  unfold catch_all, bind, ret.
  destruct (outcome (m s)); reflexivity.
Qed.

(** *** The methods of a port on a frame it is connected to *)

Section Connected.

Variables (s : Sys) (frameName : string) (p : FramePtr) (fr : Frame).
Hypothesis Hc : connected s frameName p fr.

Lemma findFrame_connected :
  findFrame frameName s = mkRes (inr (Some p)) s [].
Proof.
  destruct Hc as [Hf _]. rewrite findFrame_run, Hf. reflexivity.
Qed.

(** [findFrame] gives the frame: the method goes on with its body. *)
Ltac frame_found :=
  rewrite (bind_run _ _ _ _ _ _ findFrame_connected);
  cbn beta iota; apply res_eta.

Lemma setRawDataToFrame_connected (data : list byte) (n : nat) :
  setRawDataToFrame frameName data n s
  = on_frame p (writeRawData (raw_writer data n)) s.
Proof. unfold setRawDataToFrame. frame_found. Qed.

Lemma setRawDataToFrameWithPublish_connected (data : list byte) (n : nat) :
  setRawDataToFrameWithPublish frameName data n s
  = (ok <- on_frame p (writeRawData (raw_writer data n)) ;;
     (if ok : bool then on_frame p notifyCallbacks else ret tt) ;;
     ret ok) s.
Proof. unfold setRawDataToFrameWithPublish. frame_found. Qed.

Lemma setSignalToFrame_connected (signal : string) (value : any) :
  setSignalToFrame frameName signal value s
  = catch_all (on_frame p (setSignal signal value) ;; ret true)
              (ret false) s.
Proof. unfold setSignalToFrame. frame_found. Qed.

Lemma setSignalToFrameWithPublish_connected (signal : string) (value : any) :
  setSignalToFrameWithPublish frameName signal value s
  = catch_all (on_frame p (setSignalWithPublish signal value) ;; ret true)
              (ret false) s.
Proof. unfold setSignalToFrameWithPublish. frame_found. Qed.

Lemma getSignalFromFrameAsAny_connected (signal : string) :
  getSignalFromFrameAsAny frameName signal s
  = on_frame p (getSignal signal) s.
Proof. unfold getSignalFromFrameAsAny. frame_found. Qed.

(** A raw write of the wrong size leaves the whole system as it was. *)
Lemma raw_write_mismatch (data : list byte) (n : nat) :
  n <> sizeof_DataT fr ->
  on_frame p (writeRawData (raw_writer data n)) s = mkRes (inr false) s [].
Proof.
  intros Hne. destruct Hc as [_ Hp].
  assert (Hw := writeRawData_mismatch fr data n Hne).
  rewrite <- (res_eta (on_frame _ _ _)).
  rewrite (on_frame_same s p fr) by (rewrite ?Hw; auto).
  rewrite (on_frame_at _ _ _ _ Hp), Hw. reflexivity.
Qed.

Lemma raw_write_match (data : list byte) :
  block_ok fr -> length data = sizeof_DataT fr ->
  on_frame p (writeRawData (raw_writer data (length data))) s
  = mkRes (inr true)
          (mkSys (this s) (bus s) (<[p := set_data data fr]> (heap s))) [].
Proof.
  intros Hblk Hlen. destruct Hc as [_ Hp].
  rewrite (on_frame_at _ _ _ _ Hp), (writeRawData_match _ _ Hblk Hlen).
  reflexivity.
Qed.

End Connected.

(** C10: on a connected frame, [setRawDataToFrame] and
    [setRawDataToFrameWithPublish] given a buffer of [n] bytes write the
    data block only when [n] is the frame's fixed data size.  When [n]
    differs both return [false] and nothing changes: the data block is as
    it was and no subscriber is notified.  When [n] matches the block
    becomes the buffer, and the variant with publish then notifies the
    subscribers of the frame as written. *)
Theorem raw_write_guard (s : Sys) (frameName : string) (p : FramePtr)
  (fr : Frame) (data : list byte) :
  connected s frameName p fr ->
  block_ok fr ->
  let r := setRawDataToFrame frameName data (length data) s in
  let r' := setRawDataToFrameWithPublish frameName data (length data) s in
  (length data <> sizeof_DataT fr ->
     outcome r = inr false /\ outcome r' = inr false /\
     final r = s /\ final r' = s /\
     data_ (frame_at (final r) p) = data_ fr /\
     data_ (frame_at (final r') p) = data_ fr /\
     emitted r' = []) /\
  (length data = sizeof_DataT fr ->
     let published := notifyCallbacks (set_data data fr) in
     outcome r = inr true /\ outcome r' = inr true /\
     frame_at (final r) p = set_data data fr /\
     frame_at (final r') p = final published /\
     data_ (frame_at (final r') p) = data /\
     emitted r = [] /\
     emitted r' = emitted published).
Proof.
  intros Hc Hblk r r'. pose proof Hc as [Hf Hp].
  assert (Hr : r = on_frame p (writeRawData (raw_writer data (length data))) s)
    by apply (setRawDataToFrame_connected _ _ _ _ Hc).
  split.
  - intros Hne.
    assert (Hon := raw_write_mismatch _ _ _ _ Hc data (length data) Hne).
    assert (Hr' : r' = mkRes (inr false) s []).
    { unfold r'.
      rewrite (setRawDataToFrameWithPublish_connected _ _ _ _ Hc).
      rewrite (bind_run _ _ _ _ _ _ Hon). reflexivity. }
    rewrite Hr, Hon, Hr'. cbn [outcome final emitted].
    unfold frame_at. rewrite (lookup_total_correct _ _ _ Hp).
    repeat split; reflexivity.
  - intros Hlen published.
    assert (Hon := raw_write_match _ _ _ _ Hc data Hblk Hlen).
    assert (Hr' : r' = mkRes (inr true)
                       (mkSys (this s) (bus s)
                              (<[p := final published]>
                                 (<[p := set_data data fr]> (heap s))))
                       (emitted published)).
    { unfold r'.
      rewrite (setRawDataToFrameWithPublish_connected _ _ _ _ Hc).
      rewrite (bind_run _ _ _ _ _ _ Hon). cbn beta iota.
      set (s1 := mkSys _ _ _).
      assert (Hn : on_frame p notifyCallbacks s1
                   = mkRes (outcome published)
                       (mkSys (this s) (bus s)
                              (<[p := final published]>
                                 (<[p := set_data data fr]> (heap s))))
                       (emitted published)).
      { apply on_frame_at. unfold s1; cbn. apply lookup_insert_eq. }
      unfold published in Hn at 1. rewrite notifyCallbacks_returns in Hn.
      rewrite (bind_run _ _ _ _ _ _ Hn). cbn. rewrite app_nil_r.
      reflexivity. }
    rewrite Hr, Hon, Hr'. cbn [outcome final emitted].
    unfold frame_at; cbn [heap]. rewrite !lookup_total_insert_eq.
    repeat split; reflexivity.
Qed.

Lemma example_sys_connected :
  connected example_sys "SharedFrame" 0 (FrameImpl "SharedFrame").
Proof. split; reflexivity. Defined.

(** The example's port writes two bytes, and then the twelve of the
    block with ["value"] at 42. *)
Lemma raw_write_guard_witness :
  (outcome (setRawDataToFrameWithPublish "SharedFrame" [x01; x02] 2
              example_sys) = inr false /\
   final (setRawDataToFrameWithPublish "SharedFrame" [x01; x02] 2
            example_sys) = example_sys /\
   emitted (setRawDataToFrameWithPublish "SharedFrame" [x01; x02] 2
              example_sys) = []) /\
  (outcome (setRawDataToFrameWithPublish "SharedFrame" value42 12 example_sys)
     = inr true /\
   data_ (frame_at
            (final (setRawDataToFrameWithPublish "SharedFrame" value42 12
                      example_sys)) 0) = value42).
Proof.
  split.
  - destruct (raw_write_guard example_sys "SharedFrame" 0
                (FrameImpl "SharedFrame") [x01; x02]
                example_sys_connected eq_refl) as [Hskip _].
    destruct Hskip as (_ & Ho & _ & Hf & _ & _ & He); [cbn; lia |].
    split; [exact Ho | split; [exact Hf | exact He]].
  - destruct (raw_write_guard example_sys "SharedFrame" 0
                (FrameImpl "SharedFrame") value42
                example_sys_connected eq_refl) as [_ Hwrite].
    destruct (Hwrite eq_refl) as (_ & Ho & _ & _ & Hd & _).
    split; [exact Ho | exact Hd].
Defined.

Lemma setSignal_run (fr : Frame) (name : string) (v : any)
  (setter : any -> list byte -> exn + list byte) :
  setters_ fr !! name = Some setter ->
  setSignal name v fr = call_setter setter v fr.
Proof.
  intros Hs. unfold setSignal.
  rewrite (bind_run get_state _ fr fr fr []) by reflexivity.
  rewrite Hs. apply res_eta.
Qed.

Lemma setSignalWithPublish_run (fr : Frame) (name : string) (v : any)
  (setter : any -> list byte -> exn + list byte) :
  setters_ fr !! name = Some setter ->
  setSignalWithPublish name v fr
  = (call_setter setter v ;; notifyCallbacks) fr.
Proof.
  intros Hs. unfold setSignalWithPublish.
  rewrite (bind_run get_state _ fr fr fr []) by reflexivity.
  rewrite Hs. apply res_eta.
Qed.

Lemma setSignalWithPublish_unregistered (fr : Frame) (u : string) (v : any) :
  unregistered fr u ->
  setSignalWithPublish u v fr = mkRes (inl (UnknownSignal u)) fr [].
Proof.
  intros [_ Hs]. unfold setSignalWithPublish, bind, get_state; cbn.
  rewrite Hs. reflexivity.
Qed.

Lemma call_setter_mismatch (fr : Frame) (m : Member) (value : any) :
  any_cast (m_type m) value = inl TypeMismatch ->
  call_setter (make_setter m) value fr = mkRes (inl TypeMismatch) fr [].
Proof.
  intros Hcast. unfold call_setter, bind, get_state, make_setter; cbn.
  rewrite Hcast. reflexivity.
Qed.

(** C7, as the code has it.  The signal setters of a port guard the call
    of the frame with [catch (...)]: whatever the frame raises (unknown
    signal, type mismatch) becomes the result [false], as does a frame
    that is not connected; the raw accessors raise nothing and return a
    boolean.  [getSignalFromFrameAsAny] returns the value and has no
    guard: it raises [FrameNotFound] for a frame that is not connected
    and lets the frame's [UnknownSignal] through, and
    [getSignalFromFrame<T>] raises [TypeMismatch] when [T] is not the
    type of the field. *)
Theorem port_error_boundary (s : Sys) (frameName signal : string)
  (value : any) (data : list byte) (n : nat) :
  ((exists b, outcome (setSignalToFrame frameName signal value s) = inr b) /\
   (exists b, outcome (setSignalToFrameWithPublish frameName signal value s)
              = inr b) /\
   (exists b, outcome (setRawDataToFrame frameName data n s) = inr b) /\
   (exists b, outcome (setRawDataToFrameWithPublish frameName data n s)
              = inr b) /\
   (forall A (cb : list byte -> nat -> A),
       exists r, outcome (getRawDataFromFrame frameName cb s) = inr r)) /\
  (frames_ (this s) !! frameName = None ->
     outcome (setSignalToFrame frameName signal value s) = inr false /\
     outcome (setSignalToFrameWithPublish frameName signal value s)
       = inr false /\
     outcome (setRawDataToFrame frameName data n s) = inr false /\
     outcome (setRawDataToFrameWithPublish frameName data n s) = inr false /\
     outcome (getSignalFromFrameAsAny frameName signal s)
       = inl FrameNotFound) /\
  (forall (p : FramePtr) (fr : Frame),
     connected s frameName p fr ->
     (unregistered fr signal ->
        outcome (setSignalToFrame frameName signal value s) = inr false /\
        outcome (setSignalToFrameWithPublish frameName signal value s)
          = inr false /\
        outcome (getSignalFromFrameAsAny frameName signal s)
          = inl (UnknownSignal signal)) /\
     (forall m : Member,
        registered fr signal m ->
        (any_cast (m_type m) value = inl TypeMismatch ->
         outcome (setSignalToFrame frameName signal value s) = inr false /\
         outcome (setSignalToFrameWithPublish frameName signal value s)
           = inr false) /\
        (forall ty : CType,
           ty <> m_type m ->
           outcome (getSignalFromFrame ty frameName signal s)
             = inl TypeMismatch))).
Proof.
  split; [| split].
  - repeat split.
    + unfold setSignalToFrame.
      rewrite (bind_run _ _ _ _ _ _ (findFrame_run s frameName)).
      destruct (frames_ (this s) !! frameName) as [p |]; cbn beta iota;
        cbn [outcome]; [rewrite guarded_returns | cbn]; eauto.
    + unfold setSignalToFrameWithPublish.
      rewrite (bind_run _ _ _ _ _ _ (findFrame_run s frameName)).
      destruct (frames_ (this s) !! frameName) as [p |]; cbn beta iota;
        cbn [outcome]; [rewrite guarded_returns | cbn]; eauto.
    + unfold setRawDataToFrame.
      rewrite (bind_run _ _ _ _ _ _ (findFrame_run s frameName)).
      destruct (frames_ (this s) !! frameName) as [p |]; cbn beta iota;
        cbn [outcome]; [| cbn; eauto].
      unfold on_frame; cbn [outcome]. apply writeRawData_returns.
    + unfold setRawDataToFrameWithPublish.
      rewrite (bind_run _ _ _ _ _ _ (findFrame_run s frameName)).
      destruct (frames_ (this s) !! frameName) as [p |]; cbn beta iota;
        cbn [outcome]; [| cbn; eauto].
      destruct (writeRawData_returns (raw_writer data n) (heap s !!! p))
        as [ok Hok].
      rewrite (bind_returns _ _ _ ok) by exact Hok. cbn [outcome].
      assert (Hpub : forall s' : Sys,
                outcome ((if ok then on_frame p notifyCallbacks else ret tt) s')
                = inr tt).
      { intros s'. destruct ok; [| reflexivity].
        unfold on_frame; cbn [outcome]. apply notifyCallbacks_returns. }
      rewrite (bind_returns _ _ _ tt) by apply Hpub. cbn. eauto.
    + intros A cb0. unfold getRawDataFromFrame.
      rewrite (bind_run _ _ _ _ _ _ (findFrame_run s frameName)).
      destruct (frames_ (this s) !! frameName) as [p |]; cbn; eauto.
  - intros Hnone.
    unfold setSignalToFrame, setSignalToFrameWithPublish, setRawDataToFrame,
      setRawDataToFrameWithPublish, getSignalFromFrameAsAny.
    rewrite !(bind_run _ _ _ _ _ _ (findFrame_run s frameName)), Hnone.
    cbn. repeat split.
  - intros p fr Hc. pose proof Hc as [_ Hp].
    rewrite (setSignalToFrame_connected _ _ _ _ Hc).
    rewrite (setSignalToFrameWithPublish_connected _ _ _ _ Hc).
    rewrite (getSignalFromFrameAsAny_connected _ _ _ _ Hc).
    rewrite !guarded_returns, !(on_frame_at _ _ _ _ Hp).
    cbn [outcome]. split.
    + intros Hun.
      rewrite (getSignal_unregistered _ _ Hun).
      rewrite (setSignal_unregistered _ _ _ Hun).
      rewrite (setSignalWithPublish_unregistered _ _ _ Hun). auto.
    + intros m [Hg Hs]. split.
      * intros Hcast.
        rewrite (setSignal_run _ _ _ _ Hs).
        rewrite (setSignalWithPublish_run _ _ _ _ Hs).
        assert (Hset := call_setter_mismatch fr m value Hcast).
        rewrite (bind_run_throw _ _ _ _ _ _ Hset), Hset. auto.
      * intros ty Hty. unfold getSignalFromFrame.
        assert (Hget : getSignalFromFrameAsAny frameName signal s
                       = mkRes (inr (make_getter m (data_ fr)))
                           (mkSys (this s) (bus s) (<[p := fr]> (heap s))) []).
        { rewrite (getSignalFromFrameAsAny_connected _ _ _ _ Hc).
          rewrite (on_frame_at _ _ _ _ Hp), (getSignal_registered _ _ _ Hg).
          reflexivity. }
        rewrite (bind_run _ _ _ _ _ _ Hget). unfold make_getter, any_cast.
        destruct (decide (m_type m = ty)); [congruence | reflexivity].
Qed.

(** C7, as stated, fails: on the connected example frame the port's
    [getSignalFromFrameAsAny] lets the frame's [UnknownSignal] through,
    and on a frame that is not connected it raises [FrameNotFound];
    neither is turned into a boolean. *)
Lemma getSignalFromFrameAsAny_throws :
  outcome (getSignalFromFrameAsAny "SharedFrame" "speed" example_sys)
    = inl (UnknownSignal "speed") /\
  outcome (getSignalFromFrameAsAny "OtherFrame" "value" example_sys)
    = inl FrameNotFound /\
  outcome (getSignalFromFrame TDouble "SharedFrame" "value" example_sys)
    = inl TypeMismatch.
Proof. repeat split. Qed.

(** The example's port on a signal that does not exist, and with a
    [double] for the [int] signal. *)
Lemma port_error_boundary_witness :
  (outcome (setSignalToFrame "SharedFrame" "speed" AnyEmpty example_sys)
     = inr false /\
   outcome (setSignalToFrameWithPublish "SharedFrame" "speed" AnyEmpty
              example_sys) = inr false /\
   outcome (getSignalFromFrameAsAny "SharedFrame" "speed" example_sys)
     = inl (UnknownSignal "speed")) /\
  (outcome (setSignalToFrame "SharedFrame" "value"
              (AnyVal TDouble [x00; x00; x00; x00; x00; x00; x00; x00])
              example_sys) = inr false /\
   outcome (setSignalToFrameWithPublish "SharedFrame" "value"
              (AnyVal TDouble [x00; x00; x00; x00; x00; x00; x00; x00])
              example_sys) = inr false).
Proof.
  split.
  - apply (proj1 (proj2 (proj2 (port_error_boundary example_sys "SharedFrame"
                                  "speed" AnyEmpty [] 0))
                    0 (FrameImpl "SharedFrame") example_sys_connected)).
    split; reflexivity.
  - apply (proj1 (proj2 (proj2 (proj2 (port_error_boundary example_sys
                                         "SharedFrame" "value"
                                         (AnyVal TDouble
                                            [x00; x00; x00; x00;
                                             x00; x00; x00; x00])
                                         [] 0))
                           0 (FrameImpl "SharedFrame") example_sys_connected)
                    MyData_value (conj eq_refl eq_refl))).
    reflexivity.
Defined.

(** ** Direct subscribers *)

Lemma addCallback_run (fr : Frame) (c : option Callback) :
  addCallback c Direct fr =
  mkRes (inr (nextCallbackId_ fr))
        (set_callbacks
           (callbacks_ fr ++
            [mkCallbackEntry (nextCallbackId_ fr) c None Direct None])
           (set_nextCallbackId ((nextCallbackId_ fr + 1) mod 2 ^ 64)%Z fr))
        [].
Proof. reflexivity. Qed.

Lemma addCallback_registers_last (fr : Frame) (c : Callback) :
  direct_subscribers (final (addCallback (Some c) Direct fr))
  = direct_subscribers fr ++ [(nextCallbackId_ fr, c)].
Proof.
  rewrite addCallback_run. unfold direct_subscribers; cbn.
  rewrite omap_app. reflexivity.
Qed.

(** Registration order is the order of the subscribers. *)
Lemma register_all_in_order (cs : list Callback) (fr : Frame) :
  map snd (direct_subscribers (register_all cs fr))
  = map snd (direct_subscribers fr) ++ cs.
Proof.
  revert fr. induction cs as [| c cs IH]; intros fr; cbn [register_all].
  - rewrite app_nil_r. reflexivity.
  - rewrite IH, addCallback_registers_last, map_app, <- app_assoc.
    reflexivity.
Qed.

Lemma notify_entry_emitted (self : Frame) (e : CallbackEntry) :
  emitted (notify_entry self e)
  = direct_calls (data_ self)
      (match direct_subscriber e with Some ic => [ic] | None => [] end).
Proof.
  unfold notify_entry, direct_subscriber.
  destruct (policy e), (cb e), (snapshotCb e), (threadedData e); reflexivity.
Qed.

Lemma notifyCallbacks_emitted (fr : Frame) :
  emitted (notifyCallbacks fr)
  = direct_calls (data_ fr) (direct_subscribers fr).
Proof.
  rewrite notifyCallbacks_run. cbn [emitted]. unfold direct_subscribers.
  induction (callbacks_ fr) as [| e l IH]; [reflexivity |].
  cbn [flat_map]. rewrite IH, notify_entry_emitted.
  cbn [omap list_omap]. unfold direct_calls.
  destruct (direct_subscriber e); reflexivity.
Qed.

Lemma notify_entry_direct (self : Frame) (e : CallbackEntry) :
  direct_subscriber (final (notify_entry self e)) = direct_subscriber e.
Proof.
  destruct e as [i c sc pol td]. unfold notify_entry, direct_subscriber.
  destruct pol, c, sc, td; reflexivity.
Qed.

Lemma notifyCallbacks_direct_subscribers (fr : Frame) :
  direct_subscribers (final (notifyCallbacks fr)) = direct_subscribers fr.
Proof.
  rewrite notifyCallbacks_run. unfold direct_subscribers.
  cbn [final callbacks_ set_callbacks].
  induction (callbacks_ fr) as [| e l IH]; [reflexivity |].
  cbn [map omap list_omap]. rewrite notify_entry_direct.
  destruct (direct_subscriber e); [f_equal |]; exact IH.
Qed.

(** C5: a port's [setSignalToFrameWithPublish] on a connected frame, with
    a registered signal and a value of its type, returns [true] and calls
    the frame's Direct subscribers c1..cN once each, in the order of their
    registration, within the call; each of them sees the data block with
    the value already written. *)
Theorem direct_fanout (s : Sys) (frameName signal : string) (p : FramePtr)
  (fr : Frame) (m : Member) (v : any) :
  connected s frameName p fr ->
  registered fr signal m ->
  member_of_DataT m fr ->
  block_ok fr ->
  holds v (m_type m) ->
  let r := setSignalToFrameWithPublish frameName signal v s in
  let written := data_ (frame_at (final r) p) in
  outcome r = inr true /\
  make_getter m written = v /\
  emitted r = direct_calls written (direct_subscribers fr) /\
  direct_subscribers (frame_at (final r) p) = direct_subscribers fr.
Proof.
  intros Hc Hreg Hin Hblk (repr & -> & Hlen) r written.
  pose proof Hc as [_ Hp].
  set (fr1 := set_data (store_at (m_offset m) repr (data_ fr)) fr).
  assert (Hpub : setSignalWithPublish signal (AnyVal (m_type m) repr) fr
                 = notifyCallbacks fr1).
  { rewrite (setSignalWithPublish_run _ _ _ _ (proj2 Hreg)).
    assert (Hset : call_setter (make_setter m) (AnyVal (m_type m) repr) fr
                   = mkRes (inr tt) fr1 []).
    { rewrite <- (setSignal_run _ signal _ _ (proj2 Hreg)).
      apply setSignal_registered, Hreg. }
    rewrite (bind_run _ _ _ _ _ _ Hset). apply res_eta. }
  assert (Hr : r = mkRes (inr true)
                     (mkSys (this s) (bus s)
                            (<[p := final (notifyCallbacks fr1)]> (heap s)))
                     (emitted (notifyCallbacks fr1))).
  { unfold r. rewrite (setSignalToFrameWithPublish_connected _ _ _ _ Hc).
    assert (Hon : on_frame p
                    (setSignalWithPublish signal (AnyVal (m_type m) repr)) s
                  = mkRes (inr tt)
                      (mkSys (this s) (bus s)
                             (<[p := final (notifyCallbacks fr1)]> (heap s)))
                      (emitted (notifyCallbacks fr1))).
    { rewrite (on_frame_at _ _ _ _ Hp), Hpub, notifyCallbacks_returns.
      reflexivity. }
    unfold catch_all. rewrite (bind_run _ _ _ _ _ _ Hon).
    cbn. rewrite app_nil_r. reflexivity. }
  assert (Hw : written = store_at (m_offset m) repr (data_ fr)).
  { unfold written. rewrite Hr. unfold frame_at; cbn [final heap].
    rewrite lookup_total_insert_eq. reflexivity. }
  rewrite Hw, Hr. cbn [outcome final emitted]. repeat split.
  - unfold make_getter. f_equal. rewrite <- Hlen. apply load_store_at.
    unfold member_of_DataT, block_ok in *. lia.
  - rewrite notifyCallbacks_emitted. reflexivity.
  - unfold frame_at; cbn [heap]. rewrite lookup_total_insert_eq.
    rewrite notifyCallbacks_direct_subscribers. reflexivity.
Qed.

Lemma direct_fanout_witness :
  outcome (setSignalToFrameWithPublish "SharedFrame" "value"
             (AnyVal TInt32 [x2a; x00; x00; x00]) subscribed_sys)
    = inr true /\
  emitted (setSignalToFrameWithPublish "SharedFrame" "value"
             (AnyVal TInt32 [x2a; x00; x00; x00]) subscribed_sys)
    = [DirectCall 1 7 value42; DirectCall 3 8 value42].
Proof.
  destruct (direct_fanout subscribed_sys "SharedFrame" "value" 0
              (frame_at subscribed_sys 0) MyData_value
              (AnyVal TInt32 [x2a; x00; x00; x00]))
    as (Ho & _ & He & _).
  - split; vm_compute; reflexivity.
  - split; vm_compute; reflexivity.
  - vm_compute; lia.
  - vm_compute; reflexivity.
  - exists [x2a; x00; x00; x00]. split; reflexivity.
  - split; [exact Ho | rewrite He; vm_compute; reflexivity].
Defined.

(** ** Callback ids *)

Lemma removeCallback_keeps_counter (fr : Frame) (i : Z) :
  nextCallbackId_ (final (removeCallback i fr)) = nextCallbackId_ fr.
Proof. reflexivity. Qed.

Lemma engine_call_counter (op : EngineCall) (fr : Frame) :
  let r := engine_call op fr in
  let next := nextCallbackId_ fr in
  (outcome r = inr (Some next) /\
   nextCallbackId_ (final r) = ((next + 1) mod 2 ^ 64)%Z) \/
  ((outcome r = inr None \/ exists e, outcome r = inl e) /\
   (nextCallbackId_ (final r) = next \/
    nextCallbackId_ (final r) = ((next + 1) mod 2 ^ 64)%Z)).
Proof.
  destruct op as [c [|] | c | i |]; cbn zeta.
  - left. split; reflexivity.
  - right. split; [right; eexists; reflexivity | right; reflexivity].
  - left. split; reflexivity.
  - right. split; [left; reflexivity | left; reflexivity].
  - right. unfold engine_call.
    rewrite (bind_returns _ _ _ tt) by apply notifyCallbacks_returns.
    split; left; reflexivity.
Qed.

Lemma counter_step (next k : Z) :
  (0 <= next)%Z -> (0 <= k)%Z -> (next + 1 + k <= 2 ^ 64)%Z ->
  let next' := ((next + 1) mod 2 ^ 64)%Z in
  (0 <= next')%Z /\ (next' + k <= 2 ^ 64)%Z /\
  (forall i, (next' <= i < next' + k)%Z -> (next < i < next + 1 + k)%Z).
Proof.
  intros H0 Hk Hle next'. unfold next'.
  destruct (decide (next + 1 = 2 ^ 64)%Z) as [Heq | Hne].
  - rewrite Heq, Z_mod_same_full. repeat split; lia.
  - rewrite Z.mod_small by lia. repeat split; lia.
Qed.

Lemma returned_ids_range (ops : list EngineCall) (fr : Frame) :
  (0 <= nextCallbackId_ fr)%Z ->
  (nextCallbackId_ fr + Z.of_nat (length ops) <= 2 ^ 64)%Z ->
  StronglySorted Z.lt (returned_ids ops fr) /\
  Forall (fun i => (nextCallbackId_ fr <= i
                    < nextCallbackId_ fr + Z.of_nat (length ops))%Z)
         (returned_ids ops fr).
Proof.
  revert fr. induction ops as [| op rest IH]; intros fr H0 Hle.
  - split; constructor.
  - cbn [returned_ids length] in *.
    set (k := Z.of_nat (length rest)).
    assert (Hk : (0 <= k)%Z) by (unfold k; lia).
    assert (Hle' : (nextCallbackId_ fr + 1 + k <= 2 ^ 64)%Z)
      by (unfold k; lia).
    destruct (counter_step _ _ H0 Hk Hle') as (Hn0 & Hnle & Hin).
    destruct (engine_call_counter op fr)
      as [[Ho Hn] | [Ho [Hn | Hn]]].
    + rewrite Ho. destruct (IH (final (engine_call op fr))) as [Hs Hf];
        [rewrite Hn; assumption | rewrite Hn; exact Hnle |].
      rewrite Hn in Hf. fold k in Hf. split.
      * constructor; [exact Hs |].
        eapply Forall_impl; [exact Hf |]. cbn. intros i Hi.
        apply Hin in Hi. lia.
      * constructor; [lia |].
        eapply Forall_impl; [exact Hf |]. cbn. intros i Hi.
        apply Hin in Hi. lia.
    + assert (Hskip : match outcome (engine_call op fr) with
                      | inr (Some i) =>
                          i :: returned_ids rest (final (engine_call op fr))
                      | _ => returned_ids rest (final (engine_call op fr))
                      end = returned_ids rest (final (engine_call op fr))).
      { destruct Ho as [-> | [e ->]]; reflexivity. }
      rewrite Hskip. destruct (IH (final (engine_call op fr))) as [Hs Hf];
        [rewrite Hn; assumption | rewrite Hn; fold k; lia |].
      rewrite Hn in Hf. fold k in Hf. split; [exact Hs |].
      eapply Forall_impl; [exact Hf |]. cbn. intros i Hi. lia.
    + assert (Hskip : match outcome (engine_call op fr) with
                      | inr (Some i) =>
                          i :: returned_ids rest (final (engine_call op fr))
                      | _ => returned_ids rest (final (engine_call op fr))
                      end = returned_ids rest (final (engine_call op fr))).
      { destruct Ho as [-> | [e ->]]; reflexivity. }
      rewrite Hskip. destruct (IH (final (engine_call op fr))) as [Hs Hf];
        [rewrite Hn; assumption | rewrite Hn; exact Hnle |].
      rewrite Hn in Hf. fold k in Hf. split; [exact Hs |].
      eapply Forall_impl; [exact Hf |]. cbn. intros i Hi.
      apply Hin in Hi. lia.
Qed.

Lemma StronglySorted_lt_NoDup (l : list Z) :
  StronglySorted Z.lt l -> NoDup l.
Proof.
  induction 1 as [| i l _ IH Hall]; constructor; [| exact IH].
  intros Hin. rewrite Forall_forall in Hall.
  specialize (Hall i Hin). lia.
Qed.

(** C9: the ids returned by any sequence of [addCallback],
    [addSnapshotCallback], [removeCallback] and [notifyCallbacks] calls
    on a frame are strictly increasing in the order of the calls, hence
    pairwise distinct, and none is below the frame's counter at the
    start: removing a callback does not free its id.  The counter is a
    [uint64_t]; the sequence is one that does not exhaust it. *)
Theorem callback_ids_increase (fr : Frame) (ops : list EngineCall) :
  (0 <= nextCallbackId_ fr)%Z ->
  (nextCallbackId_ fr + Z.of_nat (length ops) <= 2 ^ 64)%Z ->
  StronglySorted Z.lt (returned_ids ops fr) /\
  NoDup (returned_ids ops fr) /\
  Forall (fun i => (nextCallbackId_ fr <= i)%Z) (returned_ids ops fr).
Proof.
  intros H0 Hle. destruct (returned_ids_range ops fr H0 Hle) as [Hs Hf].
  split; [exact Hs | split].
  - apply StronglySorted_lt_NoDup, Hs.
  - eapply Forall_impl; [exact Hf |]. cbn. intros i Hi. lia.
Qed.

Lemma callback_ids_increase_witness :
  returned_ids lifetime (FrameBase 12 "SharedFrame") = [1; 3; 4]%Z /\
  StronglySorted Z.lt (returned_ids lifetime (FrameBase 12 "SharedFrame")) /\
  NoDup (returned_ids lifetime (FrameBase 12 "SharedFrame")) /\
  Forall (fun i => (nextCallbackId_ (FrameBase 12 "SharedFrame") <= i)%Z)
         (returned_ids lifetime (FrameBase 12 "SharedFrame")).
Proof.
  split; [vm_compute; reflexivity |].
  apply (callback_ids_increase (FrameBase 12 "SharedFrame") lifetime).
  - cbn; lia.
  - cbn; lia.
Defined.

(** ** Threaded subscribers *)

Lemma addSnapshotCallback_subscription (fr : Frame) (c : SnapshotCallback) :
  subscription (nextCallbackId_ fr) (callbacks_ fr) = None ->
  threaded_subscription (final (addSnapshotCallback (Some c) fr))
    (nextCallbackId_ fr) c (mkThreadedData Running [] false).
Proof.
  intros Hnew. unfold threaded_subscription; cbn.
  induction (callbacks_ fr) as [| e l IH]; cbn in *.
  - destruct (decide (nextCallbackId_ fr = nextCallbackId_ fr));
      [reflexivity | contradiction].
  - destruct (decide (id e = nextCallbackId_ fr)); [discriminate | auto].
Qed.

Lemma subscription_map (f : CallbackEntry -> CallbackEntry) (i : Z)
  (l : list CallbackEntry) :
  (forall e, id (f e) = id e) ->
  subscription i (map f l) = f <$> subscription i l.
Proof.
  intros Hid. induction l as [| e l IH]; cbn; [reflexivity |].
  rewrite Hid. destruct (decide (id e = i)); [reflexivity | exact IH].
Qed.

Lemma notify_entry_id (self : Frame) (e : CallbackEntry) :
  id (final (notify_entry self e)) = id e.
Proof.
  destruct e as [i c sc pol td]. unfold notify_entry.
  destruct pol, c, sc, td; reflexivity.
Qed.

Lemma notifyCallbacks_pushes (fr : Frame) (i : Z) (c : SnapshotCallback)
  (td : ThreadedData) :
  threaded_subscription fr i c td ->
  threaded_subscription (final (notifyCallbacks fr)) i c
    (push (serializer_ fr (data_ fr)) td).
Proof.
  unfold threaded_subscription. intros Hsub.
  rewrite notifyCallbacks_run. cbn [final callbacks_ set_callbacks].
  rewrite subscription_map by apply notify_entry_id.
  rewrite Hsub. reflexivity.
Qed.

Lemma publish_run (d : list byte) (fr : Frame) :
  publish d fr = notifyCallbacks (set_data d fr).
Proof.
  unfold publish.
  rewrite (bind_run _ _ fr (set_data d fr) tt []) by reflexivity.
  apply res_eta.
Qed.

Lemma publishes_enqueue (ds : list (list byte)) (fr : Frame) (i : Z)
  (c : SnapshotCallback) (td : ThreadedData) :
  threaded_subscription fr i c td ->
  serializer_ (final (publishes ds fr)) = serializer_ fr /\
  threaded_subscription (final (publishes ds fr)) i c
    (mkThreadedData (worker td) (queue td ++ map (serializer_ fr) ds)
                    (stop td)).
Proof.
  revert fr td. induction ds as [| d ds IH]; intros fr td Hsub.
  - cbn. rewrite app_nil_r. destruct td; auto.
  - cbn [publishes].
    assert (Hp : publish d fr
                 = mkRes (inr tt) (final (notifyCallbacks (set_data d fr)))
                         (emitted (notifyCallbacks (set_data d fr)))).
    { rewrite publish_run, <- (notifyCallbacks_returns (set_data d fr)).
      symmetry. apply res_eta. }
    rewrite (bind_run _ _ _ _ _ _ Hp). cbn [final].
    assert (Hsub' : threaded_subscription (set_data d fr) i c td)
      by exact Hsub.
    apply notifyCallbacks_pushes in Hsub'.
    destruct (IH _ _ Hsub') as [Hser Hq].
    split; [exact Hser |].
    cbn [map]. unfold push in Hq. cbn in Hq.
    rewrite <- app_assoc in Hq. exact Hq.
Qed.

Lemma turn_of_subscription (i : Z) (l : list CallbackEntry)
  (c : SnapshotCallback) (td : ThreadedData) :
  subscription i l = Some (mkCallbackEntry i None (Some c) Threaded (Some td)) ->
  emitted (turn_of i l) = emitted (worker_turn i (Some c) td) /\
  subscription i (final (turn_of i l))
  = Some (mkCallbackEntry i None (Some c) Threaded
            (Some (final (worker_turn i (Some c) td)))).
Proof.
  induction l as [| e l IH]; cbn [subscription turn_of]; [discriminate |].
  destruct (decide (id e = i)) as [Heq | Hne].
  - intros [= ->]. cbn. split; [reflexivity |].
    destruct (decide (i = i)); [reflexivity | contradiction].
  - intros Hsub. destruct (IH Hsub) as [He Hs].
    destruct (threadedData e); cbn; rewrite He;
      (split; [reflexivity |]);
      (destruct (decide (id e = i)); [contradiction | exact Hs]).
Qed.

Lemma worker_step_pops (fr : Frame) (i : Z) (c : SnapshotCallback)
  (snapshot : list byte) (rest : list (list byte)) (st : bool) :
  threaded_subscription fr i c (mkThreadedData Running (snapshot :: rest) st) ->
  emitted (worker_step i fr) = deliver i (Some c) snapshot /\
  serializer_ (final (worker_step i fr)) = serializer_ fr /\
  threaded_subscription (final (worker_step i fr)) i c
    (mkThreadedData Running rest st).
Proof.
  intros Hsub. destruct (turn_of_subscription _ _ _ _ Hsub) as [He Hs].
  unfold worker_step, threaded_subscription; cbn. auto.
Qed.

(** With nothing queued and no stop requested the worker stays blocked:
    a turn delivers nothing. *)
Lemma worker_step_waits (fr : Frame) (i : Z) (c : SnapshotCallback) :
  threaded_subscription fr i c (mkThreadedData Running [] false) ->
  emitted (worker_step i fr) = [] /\
  threaded_subscription (final (worker_step i fr)) i c
    (mkThreadedData Running [] false).
Proof.
  intros Hsub. destruct (turn_of_subscription _ _ _ _ Hsub) as [He Hs].
  unfold worker_step, threaded_subscription; cbn. auto.
Qed.

Lemma deliver_nonempty (i : Z) (c : SnapshotCallback) (snapshot : list byte) :
  snapshot <> [] ->
  deliver i (Some c) snapshot
  = [SnapshotCall i (scb_tag c) snapshot (length snapshot)].
Proof. destruct snapshot; [contradiction | reflexivity]. Qed.




(** * Further properties of the code *)

(** ** Signals and the data block *)

Lemma load_store_disjoint (off off' n : nat) (bs d : list byte) :
  off + length bs <= length d ->
  off' + n <= length d ->
  off + length bs <= off' \/ off' + n <= off ->
  load_at off' n (store_at off bs d) = load_at off' n d.
Proof.
  intros Hin Hin' Hdis. unfold load_at, store_at.
  apply list_eq. intros k.
  destruct (decide (k < n)) as [Hk | Hk].
  - rewrite !lookup_take_lt, !lookup_drop by lia.
    destruct Hdis as [Hdis | Hdis].
    + rewrite lookup_app_r by (rewrite length_take; lia).
      rewrite length_take, lookup_app_r by lia.
      rewrite lookup_drop. f_equal. lia.
    + rewrite lookup_app_l by (rewrite length_take; lia).
      apply lookup_take_lt. lia.
  - rewrite !lookup_take_ge by lia. reflexivity.
Qed.

(** Setting one signal leaves the value of every signal whose member does
    not overlap it. *)
Theorem setSignal_leaves_other_signals
  (fr : Frame) (s s' : string) (m m' : Member) (v : any) :
  registered fr s m ->
  registered fr s' m' ->
  member_of_DataT m fr ->
  member_of_DataT m' fr ->
  block_ok fr ->
  holds v (m_type m) ->
  disjoint_members m m' ->
  outcome ((setSignal s v ;; getSignal s') fr) = outcome (getSignal s' fr).
Proof.
  intros Hreg Hreg' Hin Hin' Hblk (repr & -> & Hlen) Hdis.
  rewrite (bind_run _ _ _ _ _ _ (setSignal_registered _ _ _ _ Hreg)).
  cbn [outcome].
  rewrite !(getSignal_registered _ s' m') by apply Hreg'.
  cbn. unfold make_getter. f_equal. f_equal.
  unfold member_of_DataT, block_ok, disjoint_members in *.
  apply load_store_disjoint; lia.
Qed.

Lemma setSignal_leaves_other_signals_witness :
  outcome ((setSignal "value" (AnyVal TInt32 [x2a; x00; x00; x00]) ;;
            getSignal "timestamp") (FrameImpl "SharedFrame"))
  = outcome (getSignal "timestamp" (FrameImpl "SharedFrame")).
Proof.
  apply (setSignal_leaves_other_signals (FrameImpl "SharedFrame")
           "value" "timestamp" MyData_value MyData_timestamp).
  - split; reflexivity.
  - split; reflexivity.
  - unfold member_of_DataT; cbn; lia.
  - unfold member_of_DataT; cbn; lia.
  - reflexivity.
  - exists [x2a; x00; x00; x00]. split; reflexivity.
  - left. cbn. lia.
Defined.

(** A value of another type, or an empty [std::any], is refused with
    [TypeMismatch]: nothing is written, and [setSignalWithPublish]
    notifies nobody. *)
Theorem setSignal_type_mismatch (fr : Frame) (s : string) (m : Member)
  (v : any) :
  registered fr s m ->
  (forall repr, v <> AnyVal (m_type m) repr) ->
  setSignal s v fr = mkRes (inl TypeMismatch) fr [] /\
  setSignalWithPublish s v fr = mkRes (inl TypeMismatch) fr [].
Proof.
  intros [_ Hs] Hty.
  assert (Hcast : any_cast (m_type m) v = inl TypeMismatch).
  { destruct v as [| ty repr]; [reflexivity |]. cbn.
    destruct (decide (ty = m_type m)) as [-> | _]; [| reflexivity].
    destruct (Hty repr eq_refl). }
  assert (Hset := call_setter_mismatch fr m v Hcast).
  rewrite (setSignal_run _ _ _ _ Hs), (setSignalWithPublish_run _ _ _ _ Hs).
  rewrite (bind_run_throw _ _ _ _ _ _ Hset). auto.
Qed.

Lemma setSignal_type_mismatch_witness :
  setSignal "value" (AnyVal TDouble [x00; x00; x00; x00; x00; x00; x00; x00])
            (FrameImpl "SharedFrame")
    = mkRes (inl TypeMismatch) (FrameImpl "SharedFrame") [] /\
  setSignalWithPublish "value"
            (AnyVal TDouble [x00; x00; x00; x00; x00; x00; x00; x00])
            (FrameImpl "SharedFrame")
    = mkRes (inl TypeMismatch) (FrameImpl "SharedFrame") [].
Proof.
  apply (setSignal_type_mismatch (FrameImpl "SharedFrame") "value"
           MyData_value).
  - split; reflexivity.
  - intros repr. discriminate.
Defined.

Lemma repeat_replicate {A} (x : A) (n : nat) : repeat x n = replicate n x.
Proof. induction n as [| n IH]; cbn; [| rewrite IH]; reflexivity. Qed.

Lemma load_at_repeat (off n k : nat) (x : byte) :
  off + n <= k -> load_at off n (repeat x k) = repeat x n.
Proof.
  intros Hin. unfold load_at.
  rewrite !repeat_replicate, drop_replicate, take_replicate.
  f_equal. lia.
Qed.

(** A frame is constructed zeroed: before any write every signal reads as
    zero bytes and [serialize()] gives [sizeof(DataT)] zero bytes. *)
Theorem fresh_frame_is_zero (n : nat) (instanceName s : string) (m : Member) :
  m_offset m + sizeof (m_type m) <= n ->
  outcome ((registerSignal s m ;; getSignal s) (FrameBase n instanceName))
    = inr (AnyVal (m_type m) (repeat x00 (sizeof (m_type m)))) /\
  outcome ((registerSignal s m ;; serialize) (FrameBase n instanceName))
    = inr (repeat x00 n).
Proof.
  intros Hin. split.
  - unfold bind, registerSignal, bind, get_state, put_state, getSignal; cbn.
    rewrite lookup_insert_eq. cbn. unfold make_getter. f_equal. f_equal.
    apply load_at_repeat. exact Hin.
  - cbn. f_equal. apply default_serializer_copy, repeat_length.
Qed.

Lemma fresh_frame_is_zero_witness :
  outcome ((registerSignal "timestamp" MyData_timestamp ;;
            getSignal "timestamp") (FrameBase 12 "SharedFrame"))
    = inr (AnyVal TDouble (repeat x00 8)) /\
  outcome ((registerSignal "timestamp" MyData_timestamp ;; serialize)
             (FrameBase 12 "SharedFrame"))
    = inr (repeat x00 12).
Proof.
  apply (fresh_frame_is_zero 12 "SharedFrame" "timestamp" MyData_timestamp).
  cbn; lia.
Defined.

(** The other round trip of the default codec: a buffer of the fixed size
    that is deserialized comes back from [serialize()] byte for byte. *)
Theorem serialize_deserialize (fr : Frame) (buf : list byte) :
  default_codec fr ->
  block_ok fr ->
  length buf = sizeof_DataT fr ->
  outcome ((deserialize buf ;; serialize) fr) = inr buf.
Proof.
  intros Hdef Hblk Hlen.
  rewrite (bind_run _ _ _ _ _ _ (deserialize_default_ok _ _ Hdef Hblk Hlen)).
  cbn [outcome]. rewrite serialize_default; [reflexivity | exact Hdef |].
  exact Hlen.
Qed.

Lemma serialize_deserialize_witness :
  outcome ((deserialize value99 ;; serialize) (FrameImpl "SharedFrame"))
  = inr value99.
Proof.
  apply (serialize_deserialize (FrameImpl "SharedFrame") value99).
  - split; reflexivity.
  - reflexivity.
  - reflexivity.
Defined.

(** ** What a frame keeps over its lifetime *)

Lemma final_bind_inv {S A B} (P : S -> Prop) (m : M S A) (k : A -> M S B)
  (s : S) :
  P (final (m s)) ->
  (forall a s', P s' -> P (final (k a s'))) ->
  P (final (bind m k s)).
Proof.
  intros Hm Hk. unfold bind. destruct (outcome (m s)); cbn; auto.
Qed.

Lemma frame_inv_set_data (n : nat) (fr : Frame) (d : list byte) :
  frame_inv n fr -> length d = n -> frame_inv n (set_data d fr).
Proof.
  intros (Hn & Hblk & Hdef & Hset) Hlen.
  refine (conj Hn (conj _ (conj Hdef Hset))).
  unfold block_ok; cbn. congruence.
Qed.

Lemma frame_inv_notifyCallbacks (n : nat) (fr : Frame) :
  frame_inv n fr -> frame_inv n (final (notifyCallbacks fr)).
Proof. intros Hinv. rewrite notifyCallbacks_frame. exact Hinv. Qed.

Lemma frame_inv_FrameBase (n : nat) (instanceName : string) :
  frame_inv n (FrameBase n instanceName).
Proof.
  refine (conj eq_refl (conj (FrameBase_block_ok _ _)
                             (conj (FrameBase_default_codec _ _) _))).
  intros name setter Hs. cbn in Hs. rewrite lookup_empty in Hs.
  discriminate.
Qed.

Lemma frame_inv_call_setter (n : nat) (fr : Frame) (m : Member) (v : any) :
  frame_inv n fr -> member_of_DataT m fr -> any_ok v ->
  frame_inv n (final (call_setter (make_setter m) v fr)).
Proof.
  intros Hinv Hin Hv. unfold call_setter, bind, get_state, make_setter; cbn.
  destruct v as [| ty repr]; cbn; [exact Hinv |].
  destruct (decide (ty = m_type m)) as [-> | _]; cbn; [| exact Hinv].
  apply frame_inv_set_data; [exact Hinv |].
  destruct Hinv as (Hn & Hblk & _). cbn in Hv.
  unfold member_of_DataT, block_ok in *.
  rewrite length_store_at; lia.
Qed.

Lemma frame_inv_deserialize (n : nat) (fr : Frame) (raw : list byte) :
  frame_inv n fr -> frame_inv n (final (deserialize raw fr)).
Proof.
  intros Hinv. pose proof Hinv as (Hn & Hblk & Hdef & _).
  destruct (decide (length raw = sizeof_DataT fr)) as [Hlen | Hne].
  - rewrite deserialize_default_ok by assumption.
    apply frame_inv_set_data; [exact Hinv | congruence].
  - rewrite deserialize_default_reject by assumption. exact Hinv.
Qed.

Lemma frame_inv_data_call (n : nat) (fr : Frame) (c : DataCall) :
  frame_inv n fr -> data_call_ok n c -> frame_inv n (final (data_call c fr)).
Proof.
  intros Hinv Hok. pose proof Hinv as (Hn & Hblk & Hdef & Hset).
  destruct c as [name m | name v | name v | raw | raw | data sz |];
    cbn [data_call data_call_ok] in *.
  - refine (conj Hn (conj Hblk (conj Hdef _))).
    intros name' setter. cbn. rewrite lookup_insert.
    destruct (decide (name = name')) as [_ | _].
    + intros [= <-]. exists m. split; [reflexivity |].
      unfold member_of_DataT; cbn. lia.
    + apply Hset.
  - unfold setSignal.
    rewrite (bind_run get_state _ fr fr fr []) by reflexivity. cbn [final].
    destruct (setters_ fr !! name) as [setter |] eqn:Hs; [| exact Hinv].
    destruct (Hset _ _ Hs) as (m & -> & Hin).
    apply frame_inv_call_setter; assumption.
  - unfold setSignalWithPublish.
    rewrite (bind_run get_state _ fr fr fr []) by reflexivity. cbn [final].
    destruct (setters_ fr !! name) as [setter |] eqn:Hs; [| exact Hinv].
    destruct (Hset _ _ Hs) as (m & -> & Hin).
    apply final_bind_inv; [apply frame_inv_call_setter; assumption |].
    intros _ fr' Hinv'. apply frame_inv_notifyCallbacks, Hinv'.
  - apply frame_inv_deserialize, Hinv.
  - apply final_bind_inv; [| intros a s' Hs'; exact Hs'].
    unfold deserializeWithPublish.
    apply final_bind_inv; [apply frame_inv_deserialize, Hinv |].
    intros _ fr' Hinv'.
    apply final_bind_inv; [apply frame_inv_notifyCallbacks, Hinv' |].
    intros _ fr'' Hinv''. exact Hinv''.
  - apply final_bind_inv; [| intros a s' Hs'; exact Hs'].
    unfold writeRawData, raw_writer, bind, get_state; cbn.
    destruct (decide (sz = sizeof_DataT fr)) as [Hsz | _]; cbn.
    + apply frame_inv_set_data; [exact Hinv |].
      unfold memcpy, block_ok in *.
      rewrite length_app, length_take, length_drop. lia.
    + rewrite set_data_same. exact Hinv.
  - apply frame_inv_notifyCallbacks, Hinv.
Qed.

Lemma frame_inv_data_calls (n : nat) (cs : list DataCall) (fr : Frame) :
  frame_inv n fr -> Forall (data_call_ok n) cs ->
  frame_inv n (data_calls cs fr).
Proof.
  revert fr. induction cs as [| c cs IH]; intros fr Hinv Hok; [exact Hinv |].
  apply Forall_cons in Hok as [Hc Hcs]. cbn [data_calls].
  apply IH; [apply frame_inv_data_call; assumption | exact Hcs].
Qed.

(** From its construction on, whatever signals are registered, set and
    published, whatever buffers are deserialized or written raw, accepted
    or refused, the data block of a frame has exactly [sizeof(DataT)]
    bytes. *)
Theorem data_block_keeps_its_size (n : nat) (instanceName : string)
  (cs : list DataCall) :
  Forall (data_call_ok n) cs ->
  length (data_ (data_calls cs (FrameBase n instanceName))) = n /\
  sizeof_DataT (data_calls cs (FrameBase n instanceName)) = n.
Proof.
  intros Hok.
  destruct (frame_inv_data_calls n cs (FrameBase n instanceName)
              (frame_inv_FrameBase n instanceName) Hok) as (Hn & Hblk & _).
  unfold block_ok in Hblk. split; congruence.
Qed.

(** A life of the example's frame: a signal set, a buffer refused, a
    buffer taken, a raw write of the wrong size. *)
Lemma data_block_keeps_its_size_witness :
  length (data_ (data_calls
                   [CallRegisterSignal "value" MyData_value;
                    CallSetSignalWithPublish "value"
                      (AnyVal TInt32 [x2a; x00; x00; x00]);
                    CallDeserialize [x01];
                    CallDeserializeWithPublish value99;
                    CallRawWrite [x01; x02] 2]
                   (FrameBase 12 "SharedFrame"))) = 12 /\
  sizeof_DataT (data_calls
                   [CallRegisterSignal "value" MyData_value;
                    CallSetSignalWithPublish "value"
                      (AnyVal TInt32 [x2a; x00; x00; x00]);
                    CallDeserialize [x01];
                    CallDeserializeWithPublish value99;
                    CallRawWrite [x01; x02] 2]
                   (FrameBase 12 "SharedFrame")) = 12.
Proof.
  apply (data_block_keeps_its_size 12 "SharedFrame").
  repeat (apply Forall_cons; split; [cbn; try lia; auto |]).
  apply Forall_nil_2.
Defined.

(** ** The callback engine: ids and removal *)

Lemma erase_first_ids_Forall (P : Z -> Prop) (i : Z) (l : list CallbackEntry) :
  Forall P (map id l) -> Forall P (map id (final (erase_first i l))).
Proof.
  induction l as [| e l IH]; cbn; [auto |].
  intros H. apply Forall_cons in H as [He Hl].
  destruct (decide (id e = i)); cbn; [exact Hl |].
  apply Forall_cons. split; [exact He | apply IH, Hl].
Qed.

Lemma erase_first_ids_sorted (i : Z) (l : list CallbackEntry) :
  StronglySorted Z.lt (map id l) ->
  StronglySorted Z.lt (map id (final (erase_first i l))).
Proof.
  induction l as [| e l IH]; cbn; [auto |].
  intros H. apply StronglySorted_inv in H as [Hl He].
  destruct (decide (id e = i)); cbn; [exact Hl |].
  constructor; [apply IH, Hl | apply erase_first_ids_Forall, He].
Qed.

Lemma sorted_snoc (l : list Z) (x : Z) :
  StronglySorted Z.lt l -> Forall (fun i => (i < x)%Z) l ->
  StronglySorted Z.lt (l ++ [x]).
Proof.
  induction 1 as [| a l Hl IH Ha]; intros Hx; cbn.
  - repeat constructor.
  - apply Forall_cons in Hx as [Hax Hx].
    constructor; [apply IH, Hx |].
    apply Forall_app. split; [exact Ha | repeat constructor; exact Hax].
Qed.

Lemma notifyCallbacks_ids (fr : Frame) :
  ids (final (notifyCallbacks fr)) = ids fr.
Proof.
  unfold ids. rewrite notifyCallbacks_run. cbn [final callbacks_ set_callbacks].
  rewrite map_map. apply map_ext. intros e. apply notify_entry_id.
Qed.

Lemma notifyCallbacks_counter (fr : Frame) :
  nextCallbackId_ (final (notifyCallbacks fr)) = nextCallbackId_ fr.
Proof. reflexivity. Qed.

Lemma ids_ordered_push_back (fr : Frame) (e : CallbackEntry) :
  ids_ordered fr ->
  (0 <= nextCallbackId_ fr < 2 ^ 64 - 1)%Z ->
  id e = nextCallbackId_ fr ->
  ids_ordered
    (set_callbacks (callbacks_ fr ++ [e])
       (set_nextCallbackId ((nextCallbackId_ fr + 1) mod 2 ^ 64)%Z fr)).
Proof.
  intros [Hs Hb] Hn He. unfold ids_ordered, ids in *; cbn.
  rewrite Z.mod_small by lia. rewrite map_app; cbn [map]. rewrite He. split.
  - apply sorted_snoc; assumption.
  - apply Forall_app. split.
    + eapply Forall_impl; [exact Hb |]. cbn. intros; lia.
    + repeat constructor. lia.
Qed.

Lemma ids_ordered_engine_call (op : EngineCall) (fr : Frame) :
  ids_ordered fr ->
  (0 <= nextCallbackId_ fr < 2 ^ 64 - 1)%Z ->
  ids_ordered (final (engine_call op fr)) /\
  (nextCallbackId_ fr <= nextCallbackId_ (final (engine_call op fr))
   <= nextCallbackId_ fr + 1)%Z.
Proof.
  intros Hord Hn.
  assert (Hmod : ((nextCallbackId_ fr + 1) mod 2 ^ 64
                  = nextCallbackId_ fr + 1)%Z)
    by (apply Z.mod_small; lia).
  destruct op as [c [|] | c | i |].
  - split; [apply (ids_ordered_push_back fr); auto | cbn; lia].
  - destruct Hord as [Hs Hb]. split; [| cbn; lia].
    unfold ids_ordered, ids; cbn. split; [exact Hs |].
    eapply Forall_impl; [exact Hb |]. cbn. intros; lia.
  - split; [apply (ids_ordered_push_back fr); auto | cbn; lia].
  - destruct Hord as [Hs Hb]. split; [| cbn; lia].
    unfold ids_ordered, ids; cbn. split.
    + apply erase_first_ids_sorted, Hs.
    + apply erase_first_ids_Forall, Hb.
  - assert (Hrun : final (engine_call NotifyCallbacks fr)
                   = final (notifyCallbacks fr)).
    { unfold engine_call.
      rewrite (bind_returns _ _ _ tt) by apply notifyCallbacks_returns.
      reflexivity. }
    rewrite Hrun, notifyCallbacks_counter. split; [| lia].
    unfold ids_ordered. rewrite notifyCallbacks_ids, notifyCallbacks_counter.
    exact Hord.
Qed.

Lemma ids_ordered_engine_calls (ops : list EngineCall) (fr : Frame) :
  ids_ordered fr ->
  (0 <= nextCallbackId_ fr)%Z ->
  (nextCallbackId_ fr + Z.of_nat (length ops) < 2 ^ 64)%Z ->
  ids_ordered (engine_calls ops fr).
Proof.
  revert fr. induction ops as [| op rest IH]; intros fr Hord H0 Hle.
  - exact Hord.
  - cbn [engine_calls length] in *.
    destruct (ids_ordered_engine_call op fr Hord) as [Hord' Hn]; [lia |].
    apply IH; [exact Hord' | lia | lia].
Qed.

Lemma FrameBase_ids_ordered (n : nat) (instanceName : string) :
  ids_ordered (FrameBase n instanceName).
Proof. split; constructor. Qed.

(** Over the lifetime of a frame, from its construction on and whatever
    is registered, rejected, removed or published, the entries of
    [callbacks_] carry distinct ids, in increasing order from the front
    to the back of the list, all of them ids the counter has already
    given out.  (The counter is a [uint64_t]; the calls do not exhaust
    it.) *)
Theorem registered_ids_distinct (n : nat) (instanceName : string)
  (ops : list EngineCall) :
  (1 + Z.of_nat (length ops) < 2 ^ 64)%Z ->
  let fr := engine_calls ops (FrameBase n instanceName) in
  StronglySorted Z.lt (ids fr) /\
  NoDup (ids fr) /\
  Forall (fun i => (i < nextCallbackId_ fr)%Z) (ids fr).
Proof.
  intros Hle fr.
  destruct (ids_ordered_engine_calls ops (FrameBase n instanceName))
    as [Hs Hb].
  - apply FrameBase_ids_ordered.
  - cbn; lia.
  - cbn; lia.
  - fold fr in Hs, Hb.
    split; [exact Hs |]. split; [apply StronglySorted_lt_NoDup, Hs | exact Hb].
Qed.

Lemma registered_ids_distinct_witness :
  ids (engine_calls lifetime (FrameBase 12 "SharedFrame")) = [3; 4]%Z /\
  NoDup (ids (engine_calls lifetime (FrameBase 12 "SharedFrame"))).
Proof.
  split; [vm_compute; reflexivity |].
  apply (registered_ids_distinct 12 "SharedFrame" lifetime).
  cbn; lia.
Defined.

(** [addCallback] with the Threaded policy is rejected with the
    [logic_error] after the id was taken from the counter: nothing is
    registered and nobody is called, and the id is not given out again,
    the next registration gets the one after it. *)
Theorem addCallback_threaded_rejected (fr : Frame)
  (c c' : option Callback) :
  (0 <= nextCallbackId_ fr < 2 ^ 64 - 1)%Z ->
  let r := addCallback c Threaded fr in
  outcome r = inl MisuseError /\
  callbacks_ (final r) = callbacks_ fr /\
  data_ (final r) = data_ fr /\
  emitted r = [] /\
  outcome (addCallback c' Direct (final r))
    = inr (nextCallbackId_ fr + 1)%Z.
Proof.
  intros Hn r. repeat split.
  rewrite addCallback_run. cbn.
  rewrite Z.mod_small by lia. reflexivity.
Qed.

Lemma addCallback_threaded_rejected_witness :
  outcome (addCallback (Some (mkCallback 8)) Threaded
             (FrameBase 12 "SharedFrame")) = inl MisuseError /\
  outcome (addCallback (Some (mkCallback 7)) Direct
             (final (addCallback (Some (mkCallback 8)) Threaded
                       (FrameBase 12 "SharedFrame")))) = inr 2%Z.
Proof.
  destruct (addCallback_threaded_rejected (FrameBase 12 "SharedFrame")
              (Some (mkCallback 8)) (Some (mkCallback 7)))
    as (Ho & _ & _ & _ & Hnext).
  - cbn; lia.
  - split; [exact Ho | exact Hnext].
Defined.

Lemma erase_first_unknown (i : Z) (l : list CallbackEntry) :
  subscription i l = None -> erase_first i l = mkRes (inr tt) l [].
Proof.
  induction l as [| e l IH]; cbn; [reflexivity |].
  destruct (decide (id e = i)); [discriminate |].
  intros H. rewrite (IH H). reflexivity.
Qed.

Lemma set_callbacks_same (fr : Frame) : set_callbacks (callbacks_ fr) fr = fr.
Proof. destruct fr; reflexivity. Qed.

Lemma filter_all (i : Z) (l : list CallbackEntry) :
  i ∉ map id l -> filter (fun e => id e <> i) l = l.
Proof.
  induction l as [| e l IH]; cbn [map]; [reflexivity |].
  intros Hni. apply not_elem_of_cons in Hni as [Hne Hni].
  rewrite filter_cons_True by congruence. rewrite IH by exact Hni.
  reflexivity.
Qed.

Lemma erase_first_filter (i : Z) (l : list CallbackEntry) :
  NoDup (map id l) ->
  final (erase_first i l) = filter (fun e => id e <> i) l.
Proof.
  induction l as [| e l IH]; cbn [map]; [reflexivity |].
  intros Hnd. apply NoDup_cons in Hnd as [Hni Hnd]. cbn [erase_first].
  destruct (decide (id e = i)) as [Heq | Hne].
  - rewrite filter_cons_False by (intros H; apply H, Heq).
    cbn [final]. rewrite <- Heq. symmetry. apply filter_all, Hni.
  - rewrite filter_cons_True by exact Hne. cbn [final].
    rewrite IH by exact Hnd. reflexivity.
Qed.

Lemma subscription_filter (i j : Z) (l : list CallbackEntry) :
  subscription j (filter (fun e => id e <> i) l)
  = if decide (j = i) then None else subscription j l.
Proof.
  induction l as [| e l IH]; [destruct (decide (j = i)); reflexivity |].
  destruct (decide (id e = i)) as [Heq | Hne].
  - rewrite filter_cons_False by (intros H; apply H, Heq).
    rewrite IH. cbn. destruct (decide (j = i)); [reflexivity |].
    destruct (decide (id e = j)); [congruence | reflexivity].
  - rewrite filter_cons_True by exact Hne. cbn. rewrite IH.
    destruct (decide (id e = j)), (decide (j = i)); congruence.
Qed.

Lemma omap_direct_filter (i : Z) (l : list CallbackEntry) :
  omap direct_subscriber (filter (fun e => id e <> i) l)
  = filter (fun ic => fst ic <> i) (omap direct_subscriber l).
Proof.
  induction l as [| e l IH]; [reflexivity |].
  destruct (decide (id e = i)) as [Heq | Hne].
  - rewrite filter_cons_False by (intros H; apply H, Heq). rewrite IH.
    cbn. destruct e as [j c sc pol td]; cbn in *.
    destruct pol, c; cbn; try reflexivity.
    destruct (decide (j <> i)); [contradiction | reflexivity].
  - rewrite filter_cons_True by exact Hne.
    destruct e as [j c sc pol td]; cbn in Hne.
    destruct pol, c; cbn; try exact IH.
    destruct (decide (j <> i)); [| contradiction].
    f_equal. exact IH.
Qed.

(** [removeCallback] with an id no entry carries removes nothing, stops
    no worker and calls nobody: the frame is as it was. *)
Theorem removeCallback_unknown_id (fr : Frame) (i : Z) :
  subscription i (callbacks_ fr) = None ->
  removeCallback i fr = mkRes (inr tt) fr [].
Proof.
  intros H. unfold removeCallback. rewrite (erase_first_unknown _ _ H).
  cbn. rewrite set_callbacks_same. reflexivity.
Qed.

Lemma removeCallback_unknown_id_witness :
  removeCallback 5 (frame_at subscribed_sys 0)
  = mkRes (inr tt) (frame_at subscribed_sys 0) [].
Proof.
  apply (removeCallback_unknown_id (frame_at subscribed_sys 0) 5).
  vm_compute; reflexivity.
Defined.

(** With distinct ids in [callbacks_], as the frame keeps them,
    [removeCallback] removes the subscription with the id and no other:
    the other entries stay, in their order and with their queues, the id
    is no longer subscribed, and a later publish calls the Direct
    subscribers that remain and not the removed one. *)
Theorem removeCallback_removes_that_subscription (fr : Frame) (i : Z) :
  NoDup (ids fr) ->
  let fr' := final (removeCallback i fr) in
  callbacks_ fr' = filter (fun e => id e <> i) (callbacks_ fr) /\
  subscription i (callbacks_ fr') = None /\
  (forall j, j <> i ->
     subscription j (callbacks_ fr') = subscription j (callbacks_ fr)) /\
  emitted (notifyCallbacks fr')
  = direct_calls (data_ fr)
      (filter (fun ic => fst ic <> i) (direct_subscribers fr)).
Proof.
  intros Hnd fr'.
  assert (Hcb : callbacks_ fr' = filter (fun e => id e <> i) (callbacks_ fr)).
  { unfold fr', removeCallback; cbn. apply erase_first_filter, Hnd. }
  split; [exact Hcb |]. rewrite Hcb. split; [| split].
  - rewrite subscription_filter. destruct (decide (i = i)); congruence.
  - intros j Hj. rewrite subscription_filter.
    destruct (decide (j = i)); congruence.
  - rewrite notifyCallbacks_emitted. unfold direct_subscribers.
    rewrite Hcb, omap_direct_filter. reflexivity.
Qed.

Lemma removeCallback_removes_that_subscription_witness :
  ids (final (removeCallback 1 (frame_at subscribed_sys 0))) = [2; 3]%Z /\
  emitted (notifyCallbacks (final (removeCallback 1 (frame_at subscribed_sys 0))))
  = [DirectCall 3 8 (repeat x00 12)].
Proof.
  destruct (removeCallback_removes_that_subscription
              (frame_at subscribed_sys 0) 1) as (Hcb & _ & _ & He).
  - apply (bool_decide_unpack _). vm_compute. exact I.
  - split; [unfold ids; rewrite Hcb; vm_compute; reflexivity |].
    rewrite He. vm_compute; reflexivity.
Defined.

(** ** Stopping the workers *)

Lemma worker_turn_stop (i : Z) (c : option SnapshotCallback)
  (td : ThreadedData) :
  stop (final (worker_turn i c td)) = stop td.
Proof. destruct td as [[| |] [| x q] [|]]; reflexivity. Qed.

Lemma worker_run_S (i : Z) (c : option SnapshotCallback) (n : nat)
  (td : ThreadedData) :
  worker_run i c (S n) td
  = mkRes (inr tt)
          (final (worker_run i c n (final (worker_turn i c td))))
          (emitted (worker_turn i c td)
           ++ emitted (worker_run i c n (final (worker_turn i c td)))).
Proof. reflexivity. Qed.

Lemma worker_run_stop (i : Z) (c : option SnapshotCallback) (n : nat)
  (td : ThreadedData) :
  stop (final (worker_run i c n td)) = stop td.
Proof.
  revert td. induction n as [| n IH]; intros td; [reflexivity |].
  rewrite worker_run_S. cbn [final]. rewrite IH. apply worker_turn_stop.
Qed.

(** A worker that was told to stop delivers what is queued, front to
    back, and leaves its loop. *)
Lemma worker_run_drains (i : Z) (c : option SnapshotCallback)
  (q : list (list byte)) :
  worker_run i c (S (length q)) (mkThreadedData Running q true)
  = mkRes (inr tt) (mkThreadedData Exited [] true)
          (flat_map (deliver i c) q).
Proof.
  induction q as [| x q IH]; [reflexivity |].
  cbn [length]. rewrite worker_run_S.
  cbn [worker_turn worker queue stop final emitted].
  rewrite IH. reflexivity.
Qed.

Lemma stopAndJoin_running (i : Z) (c : SnapshotCallback)
  (q : list (list byte)) (st : bool) :
  stopAndJoin (mkCallbackEntry i None (Some c) Threaded
                 (Some (mkThreadedData Running q st)))
  = mkRes (inr tt)
          (mkCallbackEntry i None (Some c) Threaded
             (Some (mkThreadedData Joined [] true)))
          (flat_map (deliver i (Some c)) q).
Proof.
  unfold stopAndJoin, join.
  cbn [policy threadedData worker queue stop joinable id snapshotCb].
  rewrite worker_run_drains. reflexivity.
Qed.





Lemma stopAndJoin_returns (e : CallbackEntry) :
  outcome (stopAndJoin e) = inr tt.
Proof.
  destruct e as [i c sc [|] [[w q st] |]]; try reflexivity.
  destruct w; reflexivity.
Qed.

Lemma stopThreadedCallbacks_run (fr : Frame) :
  stopThreadedCallbacks fr
  = mkRes (inr tt)
          (set_callbacks
             (map (fun e => final (stopAndJoin e)) (callbacks_ fr)) fr)
          (flat_map (fun e => emitted (stopAndJoin e)) (callbacks_ fr)).
Proof.
  unfold stopThreadedCallbacks. rewrite for_each_all_return; [reflexivity |].
  apply Forall_forall. intros e _. apply stopAndJoin_returns.
Qed.

Lemma stopAndJoin_subscriber (e : CallbackEntry) :
  subscriber_of (final (stopAndJoin e)) = subscriber_of e.
Proof.
  destruct e as [i c sc [|] [[w q st] |]]; try reflexivity.
  destruct w; reflexivity.
Qed.

Lemma stopAndJoin_id (e : CallbackEntry) : id (final (stopAndJoin e)) = id e.
Proof.
  destruct e as [i c sc [|] [[w q st] |]]; try reflexivity.
  destruct w; reflexivity.
Qed.

Lemma stopAndJoin_direct (e : CallbackEntry) :
  direct_subscriber (final (stopAndJoin e)) = direct_subscriber e.
Proof.
  destruct e as [i c sc [|] [[w q st] |]]; try reflexivity.
  destruct w; reflexivity.
Qed.

Lemma stopAndJoin_joined (e : CallbackEntry) :
  worker_joined (final (stopAndJoin e)).
Proof.
  destruct e as [i c sc [|] [[w q st] |]]; try exact I.
  unfold stopAndJoin, join, worker_joined.
  cbn [policy threadedData worker queue stop id snapshotCb].
  destruct w; cbn [joinable final set_threadedData policy threadedData
                   worker stop];
    (split; [reflexivity |]); try reflexivity;
    rewrite worker_run_stop; reflexivity.
Qed.

Lemma stopAndJoin_again (e : CallbackEntry) :
  worker_joined e -> stopAndJoin e = mkRes (inr tt) e [].
Proof.
  destruct e as [i c sc [|] [[w q st] |]]; try reflexivity.
  unfold worker_joined; cbn. intros [-> ->]. reflexivity.
Qed.

(** [stopThreadedCallbacks] stops and joins the worker of every Threaded
    subscription and removes none: the same subscribers are registered
    afterwards, Direct ones included, and every worker has been joined.
    A second call finds nothing to do: it changes nothing and no callback
    runs. *)
Theorem stopThreadedCallbacks_joins_once (fr : Frame) :
  let r := stopThreadedCallbacks fr in
  outcome r = inr tt /\
  subscribers (final r) = subscribers fr /\
  direct_subscribers (final r) = direct_subscribers fr /\
  Forall worker_joined (callbacks_ (final r)) /\
  stopThreadedCallbacks (final r) = mkRes (inr tt) (final r) [].
Proof.
  intros r. unfold r. rewrite stopThreadedCallbacks_run.
  cbn [outcome final].
  assert (Hj : Forall worker_joined
                 (map (fun e => final (stopAndJoin e)) (callbacks_ fr))).
  { apply Forall_map, Forall_forall. intros e _. apply stopAndJoin_joined. }
  split; [reflexivity |]. split; [| split; [| split]].
  - unfold subscribers; cbn [callbacks_ set_callbacks].
    rewrite map_map. apply map_ext. intros e. apply stopAndJoin_subscriber.
  - unfold direct_subscribers; cbn [callbacks_ set_callbacks].
    clear Hj. induction (callbacks_ fr) as [| e l IH]; [reflexivity |].
    cbn [map omap list_omap]. rewrite stopAndJoin_direct.
    destruct (direct_subscriber e); [f_equal |]; exact IH.
  - exact Hj.
  - rewrite stopThreadedCallbacks_run. cbn [callbacks_ set_callbacks].
    set (l := map (fun e => final (stopAndJoin e)) (callbacks_ fr)) in *.
    assert (Hagain : map (fun e => final (stopAndJoin e)) l = l /\
                     flat_map (fun e => emitted (stopAndJoin e)) l = []).
    { induction Hj as [| e l' He Hl [IHm IHe]]; [split; reflexivity |].
      cbn [map flat_map]. rewrite (stopAndJoin_again _ He), IHm, IHe.
      split; reflexivity. }
    destruct Hagain as [-> ->]. reflexivity.
Qed.

Lemma stopThreadedCallbacks_subscription (fr : Frame) (i : Z)
  (c : SnapshotCallback) (q : list (list byte)) (st : bool) :
  threaded_subscription fr i c (mkThreadedData Running q st) ->
  threaded_subscription (final (stopThreadedCallbacks fr)) i c
    (mkThreadedData Joined [] true).
Proof.
  unfold threaded_subscription. intros H.
  rewrite stopThreadedCallbacks_run. cbn [final callbacks_ set_callbacks].
  rewrite subscription_map by apply stopAndJoin_id.
  rewrite H. cbn [fmap option_fmap option_map].
  rewrite stopAndJoin_running. reflexivity.
Qed.

Lemma worker_step_not_running (fr : Frame) (i : Z) (c : SnapshotCallback)
  (td : ThreadedData) :
  threaded_subscription fr i c td ->
  worker td <> Running ->
  emitted (worker_step i fr) = [] /\
  threaded_subscription (final (worker_step i fr)) i c td.
Proof.
  intros Hsub Hw. destruct (turn_of_subscription _ _ _ _ Hsub) as [He Hs].
  assert (Ht : worker_turn i (Some c) td = mkRes (inr tt) td []).
  { unfold worker_turn. destruct (worker td); [contradiction | reflexivity..]. }
  rewrite Ht in He, Hs. unfold worker_step, threaded_subscription; cbn. auto.
Qed.

Lemma worker_steps_not_running (turns : nat) (fr : Frame) (i : Z)
  (c : SnapshotCallback) (td : ThreadedData) :
  threaded_subscription fr i c td ->
  worker td <> Running ->
  emitted (worker_steps i turns fr) = [].
Proof.
  revert fr. induction turns as [| n IH]; intros fr Hsub Hw; [reflexivity |].
  destruct (worker_step_not_running _ _ _ _ Hsub Hw) as [He Hsub'].
  cbn [worker_steps].
  assert (Hstep : worker_step i fr
                  = mkRes (inr tt) (final (worker_step i fr))
                          (emitted (worker_step i fr)))
    by reflexivity.
  rewrite (bind_run _ _ _ _ _ _ Hstep). cbn [final emitted].
  rewrite He, (IH _ Hsub' Hw). reflexivity.
Qed.

(** After [stopThreadedCallbacks] a Threaded subscription stays
    registered without a worker: every later publish still puts its
    snapshot on the subscription's queue, and nothing takes it off, the
    callback is not called for it. *)
Theorem publish_after_stop_is_not_delivered (fr : Frame) (i : Z)
  (c : SnapshotCallback) (q : list (list byte)) (st : bool)
  (ds : list (list byte)) (turns : nat) :
  threaded_subscription fr i c (mkThreadedData Running q st) ->
  let stopped := final (stopThreadedCallbacks fr) in
  let published := final (publishes ds stopped) in
  threaded_subscription published i c
    (mkThreadedData Joined (map (serializer_ fr) ds) true) /\
  emitted (worker_steps i turns published) = [].
Proof.
  intros Hsub stopped published.
  apply stopThreadedCallbacks_subscription in Hsub. fold stopped in Hsub.
  destruct (publishes_enqueue ds stopped i c _ Hsub) as [_ Hpub].
  cbn [worker queue stop app] in Hpub. fold published in Hpub.
  assert (Hser : serializer_ stopped = serializer_ fr).
  { unfold stopped. rewrite stopThreadedCallbacks_run. reflexivity. }
  rewrite Hser in Hpub. split; [exact Hpub |].
  apply (worker_steps_not_running turns published i c _ Hpub).
  cbn. discriminate.
Qed.

Lemma publish_after_stop_is_not_delivered_witness :
  threaded_subscription
    (final (publishes [value42]
              (final (stopThreadedCallbacks (frame_at subscribed_sys 0)))))
    2 (mkSnapshotCallback 9) (mkThreadedData Joined [value42] true) /\
  emitted (worker_steps 2 5
             (final (publishes [value42]
                       (final (stopThreadedCallbacks
                                 (frame_at subscribed_sys 0)))))) = [].
Proof.
  apply (publish_after_stop_is_not_delivered (frame_at subscribed_sys 0) 2
           (mkSnapshotCallback 9) [] false [value42] 5).
  vm_compute; reflexivity.
Defined.

(** ** Ports: subscriptions *)

Lemma addSnapshotCallback_run (fr : Frame) (c : option SnapshotCallback) :
  addSnapshotCallback c fr =
  mkRes (inr (nextCallbackId_ fr))
        (set_callbacks
           (callbacks_ fr ++
            [mkCallbackEntry (nextCallbackId_ fr) None c Threaded
               (Some (mkThreadedData Running [] false))])
           (set_nextCallbackId ((nextCallbackId_ fr + 1) mod 2 ^ 64)%Z fr))
        [].
Proof. reflexivity. Qed.

Lemma subscribeFrameDirect_run (s : Sys) (frameName : string) (p : FramePtr)
  (fr : Frame) (c : Callback) :
  connected s frameName p fr ->
  subscribeFrameDirect frameName c s
  = mkRes (inr (nextCallbackId_ fr))
          (mkSys (mkPortBase (port_instanceName_ (this s)) (frames_ (this s))
                    (<[nextCallbackId_ fr := p]> (callback_map_ (this s))))
                 (bus s)
                 (<[p := final (addCallback (Some c) Direct fr)]> (heap s)))
          [].
Proof.
  intros Hc. unfold subscribeFrameDirect.
  rewrite (bind_run _ _ _ _ _ _ (findFrame_connected _ _ _ _ Hc)).
  cbn beta iota. destruct Hc as [_ Hh].
  rewrite (bind_run _ _ _ _ _ _
             (eq_trans (on_frame_at _ _ _ _ Hh)
                       (f_equal (fun r => mkRes (outcome r) _ (emitted r))
                                (addCallback_run fr (Some c))))).
  reflexivity.
Qed.

Lemma subscribeFrame_run (s : Sys) (frameName : string) (p : FramePtr)
  (fr : Frame) (c : SnapshotCallback) :
  connected s frameName p fr ->
  subscribeFrame frameName c s
  = mkRes (inr (nextCallbackId_ fr))
          (mkSys (mkPortBase (port_instanceName_ (this s)) (frames_ (this s))
                    (<[nextCallbackId_ fr := p]> (callback_map_ (this s))))
                 (bus s)
                 (<[p := final (addSnapshotCallback (Some c) fr)]> (heap s)))
          [].
Proof.
  intros Hc. unfold subscribeFrame.
  rewrite (bind_run _ _ _ _ _ _ (findFrame_connected _ _ _ _ Hc)).
  cbn beta iota. destruct Hc as [_ Hh].
  rewrite (bind_run _ _ _ _ _ _
             (eq_trans (on_frame_at _ _ _ _ Hh)
                       (f_equal (fun r => mkRes (outcome r) _ (emitted r))
                                (addSnapshotCallback_run fr (Some c))))).
  reflexivity.
Qed.

Lemma unsubscribeFrame_unknown (s : Sys) (i : Z) :
  callback_map_ (this s) !! i = None ->
  unsubscribeFrame i s = mkRes (inr tt) s [].
Proof.
  intros H. unfold unsubscribeFrame.
  rewrite (bind_run _ _ s s s []) by reflexivity.
  rewrite H. reflexivity.
Qed.

Lemma unsubscribeFrame_run (s : Sys) (i : Z) (p : FramePtr) (fr : Frame) :
  callback_map_ (this s) !! i = Some p ->
  heap s !! p = Some fr ->
  unsubscribeFrame i s
  = mkRes (inr tt)
          (mkSys (mkPortBase (port_instanceName_ (this s)) (frames_ (this s))
                    (delete i (callback_map_ (this s))))
                 (bus s)
                 (<[p := final (removeCallback i fr)]> (heap s)))
          (emitted (removeCallback i fr)).
Proof.
  intros Hm Hh. unfold unsubscribeFrame.
  rewrite (bind_run _ _ s s s []) by reflexivity.
  rewrite Hm.
  rewrite (bind_run _ _ _ _ _ _
             (eq_refl : set_callback_map (delete i (callback_map_ (this s))) s
                        = mkRes (inr tt) _ [])).
  rewrite (on_frame_at _ _ fr) by exact Hh. reflexivity.
Qed.

(** [unsubscribeFrame] with an id the port holds no subscription for
    does nothing: the port, the bus and the frames are as they were and
    no callback runs.  That is the case of an id the port never got from
    a subscribe call, and of the second of two calls with the same id. *)
Theorem unsubscribeFrame_once (s : Sys) (i : Z) :
  (callback_map_ (this s) !! i = None ->
   unsubscribeFrame i s = mkRes (inr tt) s []) /\
  unsubscribeFrame i (final (unsubscribeFrame i s))
  = mkRes (inr tt) (final (unsubscribeFrame i s)) [].
Proof.
  split; [apply unsubscribeFrame_unknown |].
  apply unsubscribeFrame_unknown.
  destruct (callback_map_ (this s) !! i) as [p |] eqn:Hm.
  - unfold unsubscribeFrame.
    rewrite (bind_run _ _ s s s []) by reflexivity.
    rewrite Hm. cbn. apply lookup_delete_eq.
  - rewrite (unsubscribeFrame_unknown _ _ Hm). exact Hm.
Qed.

Lemma unsubscribeFrame_once_witness :
  unsubscribeFrame 7 subscribed_sys = mkRes (inr tt) subscribed_sys [] /\
  unsubscribeFrame 1 (final (unsubscribeFrame 1 subscribed_sys))
  = mkRes (inr tt) (final (unsubscribeFrame 1 subscribed_sys)) [].
Proof.
  destruct (unsubscribeFrame_once subscribed_sys 7) as [H7 _].
  destruct (unsubscribeFrame_once subscribed_sys 1) as [_ H1].
  split; [apply H7; vm_compute; reflexivity | exact H1].
Defined.

Lemma erase_first_last (i : Z) (l : list CallbackEntry) (e : CallbackEntry) :
  subscription i l = None -> id e = i ->
  erase_first i (l ++ [e]) = mkRes (inr tt) l (emitted (stopAndJoin e)).
Proof.
  intros Hl He. induction l as [| e' l IH]; cbn [app erase_first].
  - destruct (decide (id e = i)); [reflexivity | contradiction].
  - cbn [subscription] in Hl. destruct (decide (id e' = i)); [discriminate |].
    rewrite (IH Hl). reflexivity.
Qed.

Lemma ids_ordered_fresh (fr : Frame) :
  ids_ordered fr -> subscription (nextCallbackId_ fr) (callbacks_ fr) = None.
Proof.
  intros [_ Hb]. unfold ids in Hb.
  induction (callbacks_ fr) as [| e l IH]; [reflexivity |].
  cbn [map] in Hb. apply Forall_cons in Hb as [He Hb]. cbn [subscription].
  destruct (decide (id e = nextCallbackId_ fr)); [lia | apply IH, Hb].
Qed.

Lemma set_callbacks_push_pop (fr : Frame) (n : Z) (l : list CallbackEntry) :
  set_callbacks (callbacks_ fr)
    (set_callbacks l (set_nextCallbackId n fr))
  = set_nextCallbackId n fr.
Proof. destruct fr; reflexivity. Qed.

Lemma unsubscribeFrame_returned (s : Sys) (i : Z) (p : FramePtr)
  (fr fr' : Frame) :
  callback_map_ (this s) !! i = Some p ->
  heap s !! p = Some fr ->
  removeCallback i fr = mkRes (inr tt) fr' [] ->
  (unsubscribeFrame i ;; ret i) s
  = mkRes (inr i)
          (mkSys (mkPortBase (port_instanceName_ (this s)) (frames_ (this s))
                    (delete i (callback_map_ (this s))))
                 (bus s) (<[p := fr']> (heap s)))
          [].
Proof.
  intros Hm Hh Hrm.
  rewrite (bind_run _ _ _ _ _ _ (unsubscribeFrame_run _ _ _ _ Hm Hh)).
  rewrite Hrm. reflexivity.
Qed.

(** A subscription made through a port and cancelled with the id the
    subscribe call returned leaves the frame as it was but for its id
    counter: the same entries are registered, the data is untouched, no
    callback has run (the worker of a Threaded subscription is joined
    with nothing queued) and the port has forgotten the id.  This holds
    for [subscribeFrameDirect] and for [subscribeFrame]. *)
Theorem subscribe_then_unsubscribe (s : Sys) (frameName : string)
  (p : FramePtr) (fr : Frame) (c : Callback) (sc : SnapshotCallback) :
  connected s frameName p fr ->
  ids_ordered fr ->
  let next := nextCallbackId_ fr in
  let counted := set_nextCallbackId ((next + 1) mod 2 ^ 64)%Z fr in
  let r := (i <- subscribeFrameDirect frameName c ;;
            unsubscribeFrame i ;; ret i) s in
  let r' := (i <- subscribeFrame frameName sc ;;
             unsubscribeFrame i ;; ret i) s in
  (outcome r = inr next /\ emitted r = [] /\
   frame_at (final r) p = counted /\
   callback_map_ (this (final r)) !! next = None) /\
  (outcome r' = inr next /\ emitted r' = [] /\
   frame_at (final r') p = counted /\
   callback_map_ (this (final r')) !! next = None).
Proof.
  intros Hc Hord next counted r r'.
  pose proof (ids_ordered_fresh _ Hord) as Hfresh. fold next in Hfresh.
  split.
  - unfold r.
    rewrite (bind_run _ _ _ _ _ _ (subscribeFrameDirect_run _ _ _ _ c Hc)).
    fold next.
    rewrite (unsubscribeFrame_returned _ next p
               (final (addCallback (Some c) Direct fr)) counted);
      [| cbn; apply lookup_insert_eq | cbn; apply lookup_insert_eq |].
    + cbn. repeat split.
      * unfold frame_at; cbn. apply lookup_total_insert_eq.
      * apply lookup_delete_eq.
    + unfold removeCallback. rewrite addCallback_run.
      cbn [final callbacks_ set_callbacks set_nextCallbackId].
      rewrite erase_first_last by (exact Hfresh || reflexivity).
      cbn [final emitted]. reflexivity.
  - unfold r'.
    rewrite (bind_run _ _ _ _ _ _ (subscribeFrame_run _ _ _ _ sc Hc)).
    fold next.
    rewrite (unsubscribeFrame_returned _ next p
               (final (addSnapshotCallback (Some sc) fr)) counted);
      [| cbn; apply lookup_insert_eq | cbn; apply lookup_insert_eq |].
    + cbn. repeat split.
      * unfold frame_at; cbn. apply lookup_total_insert_eq.
      * apply lookup_delete_eq.
    + unfold removeCallback. rewrite addSnapshotCallback_run.
      cbn [final callbacks_ set_callbacks set_nextCallbackId].
      rewrite erase_first_last by (exact Hfresh || reflexivity).
      rewrite stopAndJoin_running.
      cbn [final emitted]. reflexivity.
Qed.

Lemma subscribe_then_unsubscribe_witness :
  outcome ((i <- subscribeFrame "SharedFrame" (mkSnapshotCallback 5) ;;
            unsubscribeFrame i ;; ret i) subscribed_sys) = inr 4%Z /\
  callbacks_ (frame_at (final ((i <- subscribeFrame "SharedFrame"
                                       (mkSnapshotCallback 5) ;;
                                unsubscribeFrame i ;; ret i) subscribed_sys))
                0)
  = callbacks_ (frame_at subscribed_sys 0).
Proof.
  destruct (subscribe_then_unsubscribe subscribed_sys "SharedFrame" 0
              (frame_at subscribed_sys 0) (mkCallback 5)
              (mkSnapshotCallback 5))
    as [_ (Ho & _ & Hf & _)].
  - split; vm_compute; reflexivity.
  - split; [repeat constructor | repeat constructor].
  - split; [exact Ho | rewrite Hf; reflexivity].
Defined.

(** ** Ports and the bus *)

Lemma Sys_eta (s : Sys) :
  mkSys (mkPortBase (port_instanceName_ (this s)) (frames_ (this s))
                    (callback_map_ (this s)))
        (bus s) (heap s) = s.
Proof. destruct s as [[n f c] b h]; reflexivity. Qed.

Lemma connectFrame_cached (s : Sys) (frameName : string) (p : FramePtr) :
  frames_ (this s) !! frameName = Some p ->
  connectFrame frameName s = mkRes (inr true) s [].
Proof.
  intros H. unfold connectFrame.
  rewrite (bind_run _ _ s s s []) by reflexivity.
  rewrite H. reflexivity.
Qed.

Lemma connectFrame_absent (s : Sys) (frameName : string) :
  frames_ (this s) !! frameName = None ->
  bus_frames_ (bus s) !! frameName = None ->
  connectFrame frameName s = mkRes (inr false) s [].
Proof.
  intros H Hb. unfold connectFrame.
  rewrite (bind_run _ _ s s s []) by reflexivity.
  rewrite H.
  rewrite (bind_run _ _ s s (bus_frames_ (bus s) !! frameName) [])
    by reflexivity.
  rewrite Hb. reflexivity.
Qed.

Lemma connectFrame_found (s : Sys) (frameName : string) (p : FramePtr) :
  frames_ (this s) !! frameName = None ->
  bus_frames_ (bus s) !! frameName = Some p ->
  connectFrame frameName s
  = mkRes (inr true)
          (mkSys (mkPortBase (port_instanceName_ (this s))
                    (<[frameName := p]> (frames_ (this s)))
                    (callback_map_ (this s)))
                 (bus s) (heap s))
          [].
Proof.
  intros H Hb. unfold connectFrame.
  rewrite (bind_run _ _ s s s []) by reflexivity.
  rewrite H.
  rewrite (bind_run _ _ s s (bus_frames_ (bus s) !! frameName) [])
    by reflexivity.
  rewrite Hb. reflexivity.
Qed.

(** [connectFrame] on a name the port is not yet connected under asks
    the bus: with no frame of that name on the bus it returns [false] and
    changes nothing; with one it returns [true] and the port is connected
    to the frame object the bus holds, its other connections, the bus and
    the frames being as before. *)
Theorem connectFrame_outcome (s : Sys) (frameName : string) :
  frames_ (this s) !! frameName = None ->
  (bus_frames_ (bus s) !! frameName = None ->
   connectFrame frameName s = mkRes (inr false) s []) /\
  (forall (p : FramePtr) (fr : Frame),
     bus_frames_ (bus s) !! frameName = Some p ->
     heap s !! p = Some fr ->
     let r := connectFrame frameName s in
     outcome r = inr true /\
     connected (final r) frameName p fr /\
     (forall other, other <> frameName ->
        frames_ (this (final r)) !! other = frames_ (this s) !! other) /\
     callback_map_ (this (final r)) = callback_map_ (this s) /\
     bus (final r) = bus s /\ heap (final r) = heap s /\
     emitted r = []).
Proof.
  intros H. split; [apply connectFrame_absent, H |].
  intros p fr Hb Hh r. unfold r.
  rewrite (connectFrame_found _ _ _ H Hb). cbn.
  repeat split; try assumption.
  - apply lookup_insert_eq.
  - intros other Hne. apply lookup_insert_ne. congruence.
Qed.

Lemma connectFrame_outcome_witness :
  connectFrame "OtherFrame" example_sys = mkRes (inr false) example_sys [] /\
  outcome (connectFrame "SharedFrame"
             (final (registerFrame "SharedFrame" 0 Client1))) = inr true /\
  connected (final (connectFrame "SharedFrame"
                      (final (registerFrame "SharedFrame" 0 Client1))))
            "SharedFrame" 0 (FrameImpl "SharedFrame").
Proof.
  destruct (connectFrame_outcome example_sys "OtherFrame") as [Hno _];
    [vm_compute; reflexivity |].
  destruct (connectFrame_outcome
              (final (registerFrame "SharedFrame" 0 Client1)) "SharedFrame")
    as [_ Hyes]; [vm_compute; reflexivity |].
  destruct (Hyes 0 (FrameImpl "SharedFrame")) as (Ho & Hc & _);
    [vm_compute; reflexivity | vm_compute; reflexivity |].
  split; [apply Hno; vm_compute; reflexivity | split; assumption].
Defined.

(** A port keeps the frame object it connected to: when the name is
    unregistered from the bus and registered again for another frame
    object, [getFrame] gives the new object, [connectFrame] on the port
    still returns [true] and changes nothing, and the port's writes go to
    the object it holds, not to the new one. *)
Theorem port_keeps_connected_frame (s : Sys) (frameName : string)
  (p q : FramePtr) (fr : Frame) (data : list byte) :
  connected s frameName p fr ->
  block_ok fr ->
  length data = sizeof_DataT fr ->
  p <> q ->
  let s' := final ((unregisterFrame frameName ;;
                    registerFrame frameName q) s) in
  outcome (getFrame frameName s') = inr (Some q) /\
  connectFrame frameName s' = mkRes (inr true) s' [] /\
  connected s' frameName p fr /\
  let r := setRawDataToFrame frameName data (length data) s' in
  outcome r = inr true /\
  frame_at (final r) p = set_data data fr /\
  heap (final r) !! q = heap s !! q.
Proof.
  intros Hc Hblk Hlen Hpq s'.
  assert (Hs' : s' = mkSys (this s)
                       (mkFrameBus
                          (<[frameName := q]>
                             (delete frameName (bus_frames_ (bus s)))))
                       (heap s)) by reflexivity.
  assert (Hc' : connected s' frameName p fr) by (rewrite Hs'; exact Hc).
  split; [| split; [| split; [exact Hc' |]]].
  - rewrite Hs'. cbn. f_equal. apply lookup_insert_eq.
  - apply (connectFrame_cached _ _ p), Hc'.
  - intros r. unfold r.
    rewrite (setRawDataToFrame_connected _ _ _ _ Hc').
    rewrite (raw_write_match _ _ _ _ Hc' _ Hblk Hlen).
    cbn. unfold frame_at; cbn. repeat split.
    + apply lookup_total_insert_eq.
    + apply lookup_insert_ne, Hpq.
Qed.

Lemma port_keeps_connected_frame_witness :
  outcome (getFrame "SharedFrame"
             (final ((unregisterFrame "SharedFrame" ;;
                      registerFrame "SharedFrame" 1) example_sys)))
    = inr (Some 1) /\
  frame_at (final (setRawDataToFrame "SharedFrame" value42 12
                     (final ((unregisterFrame "SharedFrame" ;;
                              registerFrame "SharedFrame" 1) example_sys))))
           0
  = set_data value42 (FrameImpl "SharedFrame").
Proof.
  destruct (port_keeps_connected_frame example_sys "SharedFrame" 0 1
              (FrameImpl "SharedFrame") value42)
    as (Hg & _ & _ & _ & Hf & _).
  - apply example_sys_connected.
  - reflexivity.
  - reflexivity.
  - lia.
  - split; [exact Hg | exact Hf].
Defined.

Lemma disconnectFrame_run (s : Sys) (frameName : string) :
  disconnectFrame frameName s
  = mkRes (inr tt)
          (mkSys (mkPortBase (port_instanceName_ (this s))
                    (delete frameName (frames_ (this s)))
                    (callback_map_ (this s)))
                 (bus s) (heap s))
          [].
Proof. reflexivity. Qed.

Lemma not_connected_calls (s : Sys) (frameName : string)
  (data : list byte) (n : nat) (c : Callback) (sc : SnapshotCallback) :
  frames_ (this s) !! frameName = None ->
  setRawDataToFrame frameName data n s = mkRes (inr false) s [] /\
  setRawDataToFrameWithPublish frameName data n s = mkRes (inr false) s [] /\
  subscribeFrame frameName sc s = mkRes (inr 0%Z) s [] /\
  subscribeFrameDirect frameName c s = mkRes (inr 0%Z) s [].
Proof.
  intros H.
  assert (Hf : findFrame frameName s = mkRes (inr None) s [])
    by (rewrite findFrame_run, H; reflexivity).
  unfold setRawDataToFrame, setRawDataToFrameWithPublish, subscribeFrame,
    subscribeFrameDirect.
  rewrite !(bind_run _ _ _ _ _ _ Hf). repeat split.
Qed.

(** [disconnectFrame] makes the port forget the frame and touches
    nothing else: the frame object, the bus and the port's subscriptions
    are as before.  From then on the port's calls on that name find no
    frame: the raw setters return [false] and the subscribe calls return
    the id 0, all without any effect.  A port that connects and then
    disconnects is as it was before. *)
Theorem disconnectFrame_forgets_the_frame (s : Sys) (frameName : string)
  (data : list byte) (n : nat) (c : Callback) (sc : SnapshotCallback) :
  let s' := final (disconnectFrame frameName s) in
  (frames_ (this s') !! frameName = None /\
   callback_map_ (this s') = callback_map_ (this s) /\
   bus s' = bus s /\ heap s' = heap s) /\
  (setRawDataToFrame frameName data n s' = mkRes (inr false) s' [] /\
   setRawDataToFrameWithPublish frameName data n s'
     = mkRes (inr false) s' [] /\
   subscribeFrame frameName sc s' = mkRes (inr 0%Z) s' [] /\
   subscribeFrameDirect frameName c s' = mkRes (inr 0%Z) s' []) /\
  (frames_ (this s) !! frameName = None ->
   final ((connectFrame frameName ;; disconnectFrame frameName) s) = s).
Proof.
  intros s'.
  assert (Hnone : frames_ (this s') !! frameName = None)
    by (unfold s'; rewrite disconnectFrame_run; cbn; apply lookup_delete_eq).
  split; [repeat split; exact Hnone |].
  split; [apply not_connected_calls, Hnone |].
  intros H.
  destruct (bus_frames_ (bus s) !! frameName) as [p |] eqn:Hb.
  - rewrite (bind_run _ _ _ _ _ _ (connectFrame_found _ _ _ H Hb)).
    cbn. rewrite delete_insert_eq, (delete_id _ _ H). apply Sys_eta.
  - rewrite (bind_run _ _ _ _ _ _ (connectFrame_absent _ _ H Hb)).
    cbn. rewrite (delete_id _ _ H). apply Sys_eta.
Qed.

Lemma disconnectFrame_forgets_the_frame_witness :
  setRawDataToFrame "SharedFrame" value42 12
    (final (disconnectFrame "SharedFrame" example_sys))
  = mkRes (inr false) (final (disconnectFrame "SharedFrame" example_sys)) [] /\
  final ((connectFrame "SharedFrame" ;; disconnectFrame "SharedFrame")
           (final (registerFrame "SharedFrame" 0 Client1)))
  = final (registerFrame "SharedFrame" 0 Client1).
Proof.
  destruct (disconnectFrame_forgets_the_frame example_sys "SharedFrame"
              value42 12 (mkCallback 7) (mkSnapshotCallback 9))
    as (_ & (Hraw & _) & _).
  destruct (disconnectFrame_forgets_the_frame
              (final (registerFrame "SharedFrame" 0 Client1)) "SharedFrame"
              value42 12 (mkCallback 7) (mkSnapshotCallback 9))
    as (_ & _ & Hback).
  split; [exact Hraw | apply Hback; vm_compute; reflexivity].
Defined.

Lemma removeCallback_last (fr : Frame) (e : CallbackEntry) (n : Z) :
  subscription (id e) (callbacks_ fr) = None ->
  callbacks_
    (final (removeCallback (id e)
              (set_callbacks (callbacks_ fr ++ [e])
                 (set_nextCallbackId n fr))))
  = callbacks_ fr.
Proof.
  intros H. unfold removeCallback.
  cbn [final callbacks_ set_callbacks set_nextCallbackId].
  rewrite erase_first_last by (exact H || reflexivity). reflexivity.
Qed.

(** [disconnectFrame] does not cancel the port's subscriptions on the
    frame: a Direct subscriber registered through the port is still among
    the frame's subscribers after the port disconnected, and
    [unsubscribeFrame] with its id still removes it, the port reaching
    the frame through the subscription itself. *)
Theorem disconnectFrame_keeps_subscriptions (s : Sys) (frameName : string)
  (p : FramePtr) (fr : Frame) (c : Callback) :
  connected s frameName p fr ->
  ids_ordered fr ->
  let next := nextCallbackId_ fr in
  let r := (i <- subscribeFrameDirect frameName c ;;
            disconnectFrame frameName ;; ret i) s in
  outcome r = inr next /\
  frames_ (this (final r)) !! frameName = None /\
  direct_subscribers (frame_at (final r) p)
    = direct_subscribers fr ++ [(next, c)] /\
  callbacks_ (frame_at (final (unsubscribeFrame next (final r))) p)
    = callbacks_ fr.
Proof.
  intros Hc Hord next r.
  pose proof (ids_ordered_fresh _ Hord) as Hfresh.
  assert (Hr : r = mkRes (inr next)
                     (mkSys (mkPortBase (port_instanceName_ (this s))
                               (delete frameName (frames_ (this s)))
                               (<[next := p]> (callback_map_ (this s))))
                            (bus s)
                            (<[p := final (addCallback (Some c) Direct fr)]>
                               (heap s)))
                     []).
  { unfold r.
    rewrite (bind_run _ _ _ _ _ _ (subscribeFrameDirect_run _ _ _ _ c Hc)).
    reflexivity. }
  rewrite Hr. cbn [outcome final]. split; [reflexivity |].
  split; [cbn; apply lookup_delete_eq |]. split.
  - unfold frame_at; cbn [heap]. rewrite lookup_total_insert_eq.
    apply addCallback_registers_last.
  - rewrite (unsubscribeFrame_run _ _ p
               (final (addCallback (Some c) Direct fr)));
      [| cbn; apply lookup_insert_eq | cbn; apply lookup_insert_eq].
    unfold frame_at; cbn [final heap]. rewrite lookup_total_insert_eq.
    rewrite addCallback_run. cbn [final].
    apply (removeCallback_last fr
             (mkCallbackEntry next (Some c) None Direct None)).
    exact Hfresh.
Qed.

Lemma subscribed_sys_connected :
  connected subscribed_sys "SharedFrame" 0 (frame_at subscribed_sys 0).
Proof. split; vm_compute; reflexivity. Qed.

Lemma subscribed_sys_ids_ordered : ids_ordered (frame_at subscribed_sys 0).
Proof. split; repeat constructor. Qed.

Lemma disconnectFrame_keeps_subscriptions_witness :
  direct_subscribers
    (frame_at (final ((i <- subscribeFrameDirect "SharedFrame" (mkCallback 5) ;;
                       disconnectFrame "SharedFrame" ;; ret i) subscribed_sys))
              0)
  = [(1, mkCallback 7); (3, mkCallback 8); (4, mkCallback 5)]%Z.
Proof.
  destruct (disconnectFrame_keeps_subscriptions subscribed_sys "SharedFrame"
              0 (frame_at subscribed_sys 0) (mkCallback 5))
    as (_ & _ & Hd & _).
  - apply subscribed_sys_connected.
  - apply subscribed_sys_ids_ordered.
  - rewrite Hd. vm_compute; reflexivity.
Defined.

Lemma heap_eta (s : Sys) : mkSys (this s) (bus s) (heap s) = s.
Proof. destruct s; reflexivity. Qed.

Lemma getRawDataFromFrame_connected {A} (s : Sys) (frameName : string)
  (p : FramePtr) (fr : Frame) (cb : list byte -> nat -> A) :
  connected s frameName p fr ->
  getRawDataFromFrame frameName cb s
  = mkRes (inr (true, Some (cb (data_ fr) (sizeof_DataT fr)))) s [].
Proof.
  intros Hc. unfold getRawDataFromFrame.
  rewrite (bind_run _ _ _ _ _ _ (findFrame_connected _ _ _ _ Hc)).
  cbn beta iota. destruct Hc as [_ Hh].
  assert (Hon : on_frame p (readRawData cb) s
                = mkRes (inr (cb (data_ fr) (sizeof_DataT fr))) s []).
  { rewrite (on_frame_at _ _ _ _ Hh). cbn.
    rewrite (insert_id _ _ _ Hh), heap_eta. reflexivity. }
  rewrite (bind_run _ _ _ _ _ _ Hon). reflexivity.
Qed.

(** What a port writes with [setRawDataToFrame] it reads back with
    [getRawDataFromFrame]: the callback is handed exactly the bytes
    written and their number.  Reading changes nothing: not the frame,
    not the port, and no subscriber is called. *)
Theorem raw_write_then_read {A} (s : Sys) (frameName : string)
  (p : FramePtr) (fr : Frame) (data : list byte)
  (cb : list byte -> nat -> A) :
  connected s frameName p fr ->
  block_ok fr ->
  length data = sizeof_DataT fr ->
  outcome ((setRawDataToFrame frameName data (length data) ;;
            getRawDataFromFrame frameName cb) s)
    = inr (true, Some (cb data (length data))) /\
  getRawDataFromFrame frameName cb s
    = mkRes (inr (true, Some (cb (data_ fr) (sizeof_DataT fr)))) s [].
Proof.
  intros Hc Hblk Hlen.
  split; [| apply (getRawDataFromFrame_connected _ _ _ _ _ Hc)].
  assert (Hw : setRawDataToFrame frameName data (length data) s
               = mkRes (inr true)
                   (mkSys (this s) (bus s)
                          (<[p := set_data data fr]> (heap s))) []).
  { rewrite (setRawDataToFrame_connected _ _ _ _ Hc).
    apply (raw_write_match _ _ _ _ Hc _ Hblk Hlen). }
  rewrite (bind_run _ _ _ _ _ _ Hw).
  rewrite (getRawDataFromFrame_connected _ frameName p (set_data data fr)).
  - cbn. rewrite Hlen. reflexivity.
  - destruct Hc as [Hf _]. split; [exact Hf | cbn; apply lookup_insert_eq].
Qed.

Lemma raw_write_then_read_witness :
  outcome ((setRawDataToFrame "SharedFrame" value42 12 ;;
            getRawDataFromFrame "SharedFrame" (fun buf n => (buf, n)))
             example_sys)
  = inr (true, Some (value42, 12)).
Proof.
  apply (raw_write_then_read example_sys "SharedFrame" 0
           (FrameImpl "SharedFrame") value42 (fun buf n => (buf, n))).
  - apply example_sys_connected.
  - reflexivity.
  - reflexivity.
Defined.

(** Two ports connected to the same frame object share its data: a
    signal one port sets is what the other port reads, under whatever
    name each of them holds the frame. *)
Theorem ports_share_the_frame (s : Sys) (portB : PortBase)
  (nameA nameB signal : string) (p : FramePtr) (fr : Frame) (m : Member)
  (v : any) :
  connected s nameA p fr ->
  frames_ portB !! nameB = Some p ->
  registered fr signal m ->
  member_of_DataT m fr ->
  block_ok fr ->
  holds v (m_type m) ->
  let r := setSignalToFrame nameA signal v s in
  outcome r = inr true /\
  outcome (getSignalFromFrameAsAny nameB signal (as_port portB (final r)))
    = inr v.
Proof.
  intros Hc HB Hreg Hin Hblk (repr & -> & Hlen) r.
  pose proof Hc as [_ Hp].
  set (fr1 := set_data (store_at (m_offset m) repr (data_ fr)) fr).
  assert (Hr : r = mkRes (inr true)
                     (mkSys (this s) (bus s) (<[p := fr1]> (heap s))) []).
  { unfold r. rewrite (setSignalToFrame_connected _ _ _ _ Hc).
    assert (Hon : on_frame p (setSignal signal (AnyVal (m_type m) repr)) s
                  = mkRes (inr tt)
                      (mkSys (this s) (bus s) (<[p := fr1]> (heap s))) []).
    { rewrite (on_frame_at _ _ _ _ Hp), (setSignal_registered _ _ _ _ Hreg).
      reflexivity. }
    unfold catch_all. rewrite (bind_run _ _ _ _ _ _ Hon). reflexivity. }
  rewrite Hr. cbn [outcome final]. split; [reflexivity |].
  assert (HcB : connected
                  (as_port portB
                     (mkSys (this s) (bus s) (<[p := fr1]> (heap s))))
                  nameB p fr1)
    by (split; [exact HB | cbn; apply lookup_insert_eq]).
  rewrite (getSignalFromFrameAsAny_connected _ _ _ _ HcB).
  rewrite (on_frame_at _ _ fr1) by apply HcB.
  rewrite (getSignal_registered fr1 signal m) by apply Hreg.
  cbn. unfold make_getter. f_equal. f_equal.
  rewrite <- Hlen. apply load_store_at.
  unfold member_of_DataT, block_ok in *. lia.
Qed.

Lemma ports_share_the_frame_witness :
  outcome (getSignalFromFrameAsAny "Shared" "value"
             (as_port (mkPortBase "Client2" {[ "Shared" := 0 ]} ∅)
                (final (setSignalToFrame "SharedFrame" "value"
                          (AnyVal TInt32 [x2a; x00; x00; x00])
                          example_sys))))
  = inr (AnyVal TInt32 [x2a; x00; x00; x00]).
Proof.
  apply (ports_share_the_frame example_sys
           (mkPortBase "Client2" {[ "Shared" := 0 ]} ∅)
           "SharedFrame" "Shared" "value" 0 (FrameImpl "SharedFrame")
           MyData_value (AnyVal TInt32 [x2a; x00; x00; x00])).
  - apply example_sys_connected.
  - vm_compute; reflexivity.
  - split; vm_compute; reflexivity.
  - unfold member_of_DataT; cbn. lia.
  - reflexivity.
  - eexists. split; reflexivity.
Defined.

(** Callback ids are counted per frame, and a port keys its
    subscriptions by the id alone.  When a port subscribes to two frames
    whose counters stand at the same value, both calls return the same
    id and the port remembers the frame of the second call for it:
    [unsubscribeFrame] with that id cancels the subscription on the
    second frame, the one on the first frame stays registered, and the
    port holds nothing for the id any more. *)
Theorem callback_ids_are_per_frame (s : Sys) (nameA nameB : string)
  (pA pB : FramePtr) (frA frB : Frame) (c1 c2 : Callback) :
  connected s nameA pA frA ->
  connected s nameB pB frB ->
  pA <> pB ->
  nextCallbackId_ frB = nextCallbackId_ frA ->
  ids_ordered frB ->
  let next := nextCallbackId_ frA in
  let r := (i <- subscribeFrameDirect nameA c1 ;;
            j <- subscribeFrameDirect nameB c2 ;;
            unsubscribeFrame i ;; ret (i, j)) s in
  outcome r = inr (next, next) /\
  direct_subscribers (frame_at (final r) pA)
    = direct_subscribers frA ++ [(next, c1)] /\
  callbacks_ (frame_at (final r) pB) = callbacks_ frB /\
  callback_map_ (this (final r)) !! next = None.
Proof.
  intros HcA HcB Hne Hnext Hord next r.
  pose proof (ids_ordered_fresh _ Hord) as Hfresh. rewrite Hnext in Hfresh.
  fold next in Hfresh.
  set (frA1 := final (addCallback (Some c1) Direct frA)).
  set (frB1 := final (addCallback (Some c2) Direct frB)).
  set (s1 := mkSys (mkPortBase (port_instanceName_ (this s))
                      (frames_ (this s))
                      (<[next := pA]> (callback_map_ (this s))))
                   (bus s) (<[pA := frA1]> (heap s))).
  assert (HcB1 : connected s1 nameB pB frB).
  { destruct HcB as [Hf Hh]. split; [exact Hf |].
    cbn. rewrite lookup_insert_ne by exact Hne. exact Hh. }
  set (s2 := mkSys (mkPortBase (port_instanceName_ (this s1))
                      (frames_ (this s1))
                      (<[next := pB]> (callback_map_ (this s1))))
                   (bus s1) (<[pB := frB1]> (heap s1))).
  assert (Hun : unsubscribeFrame next s2
                = mkRes (inr tt)
                    (mkSys (mkPortBase (port_instanceName_ (this s2))
                              (frames_ (this s2))
                              (delete next (callback_map_ (this s2))))
                           (bus s2)
                           (<[pB := final (removeCallback next frB1)]>
                              (heap s2)))
                    (emitted (removeCallback next frB1))).
  { apply unsubscribeFrame_run; cbn; apply lookup_insert_eq. }
  assert (Hrm : removeCallback next frB1
                = mkRes (inr tt)
                    (set_nextCallbackId
                       ((nextCallbackId_ frB + 1) mod 2 ^ 64)%Z frB) []).
  { unfold frB1, removeCallback. rewrite addCallback_run.
    cbn [final callbacks_ set_callbacks set_nextCallbackId].
    rewrite erase_first_last by (exact Hfresh || exact Hnext).
    cbn [final emitted]. rewrite set_callbacks_push_pop. reflexivity. }
  rewrite Hrm in Hun. cbn [final emitted] in Hun.
  assert (Hr : r = mkRes (inr (next, next)) (final (unsubscribeFrame next s2))
                     []).
  { unfold r.
    rewrite (bind_run _ _ _ _ _ _ (subscribeFrameDirect_run _ _ _ _ c1 HcA)).
    fold next frA1 s1.
    rewrite (bind_run _ _ _ _ _ _ (subscribeFrameDirect_run _ _ _ _ c2 HcB1)).
    rewrite Hnext. fold next frB1 s2.
    rewrite (bind_run _ _ _ _ _ _ Hun). rewrite Hun. reflexivity. }
  rewrite Hr, Hun. cbn [outcome final]. split; [reflexivity |].
  unfold frame_at; cbn [heap this callback_map_ s2 s1]. repeat split.
  - rewrite !lookup_total_insert_ne by congruence.
    rewrite lookup_total_insert_eq. apply addCallback_registers_last.
  - rewrite lookup_total_insert_eq. reflexivity.
  - apply lookup_delete_eq.
Qed.

Lemma callback_ids_are_per_frame_witness :
  outcome ((i <- subscribeFrameDirect "SharedFrame" (mkCallback 7) ;;
            j <- subscribeFrameDirect "OtherFrame" (mkCallback 8) ;;
            unsubscribeFrame i ;; ret (i, j)) two_frames_sys)
    = inr (1, 1)%Z /\
  direct_subscribers
    (frame_at (final ((i <- subscribeFrameDirect "SharedFrame" (mkCallback 7) ;;
                       j <- subscribeFrameDirect "OtherFrame" (mkCallback 8) ;;
                       unsubscribeFrame i ;; ret (i, j)) two_frames_sys)) 0)
    = [(1%Z, mkCallback 7)] /\
  callbacks_
    (frame_at (final ((i <- subscribeFrameDirect "SharedFrame" (mkCallback 7) ;;
                       j <- subscribeFrameDirect "OtherFrame" (mkCallback 8) ;;
                       unsubscribeFrame i ;; ret (i, j)) two_frames_sys)) 1)
    = [].
Proof.
  destruct (callback_ids_are_per_frame two_frames_sys
              "SharedFrame" "OtherFrame" 0 1
              (FrameImpl "SharedFrame") (FrameImpl "OtherFrame")
              (mkCallback 7) (mkCallback 8))
    as (Ho & Hd & Hcb & _).
  - split; vm_compute; reflexivity.
  - split; vm_compute; reflexivity.
  - lia.
  - reflexivity.
  - split; constructor.
  - split; [exact Ho | split; [exact Hd | exact Hcb]].
Defined.

(** ** Publishing what was written *)

Lemma sizeof_pos (ty : CType) : 0 < sizeof ty.
Proof. destruct ty; cbn; lia. Qed.

Lemma notifyCallbacks_data (fr : Frame) :
  data_ (final (notifyCallbacks fr)) = data_ fr.
Proof. reflexivity. Qed.

(** A Threaded subscriber gets the data as [setSignalWithPublish] wrote
    it: with the constructor's serializer, the snapshot its worker
    delivers next is the frame's data block after the write, of
    [sizeof(DataT)] bytes, and holds the value set at the member's
    offset. *)
Theorem snapshot_carries_written_value (fr : Frame) (s : string)
  (m : Member) (v : any) (i : Z) (c : SnapshotCallback) (st : bool) :
  registered fr s m ->
  member_of_DataT m fr ->
  block_ok fr ->
  default_codec fr ->
  holds v (m_type m) ->
  threaded_subscription fr i c (mkThreadedData Running [] st) ->
  let published := final (setSignalWithPublish s v fr) in
  emitted (worker_step i published)
    = [SnapshotCall i (scb_tag c) (data_ published) (sizeof_DataT fr)] /\
  make_getter m (data_ published) = v.
Proof.
  intros Hreg Hin Hblk [Hser _] (repr & -> & Hlen) Hsub published.
  set (fr1 := set_data (store_at (m_offset m) repr (data_ fr)) fr).
  assert (Hpub : setSignalWithPublish s (AnyVal (m_type m) repr) fr
                 = notifyCallbacks fr1).
  { rewrite (setSignalWithPublish_run _ _ _ _ (proj2 Hreg)).
    assert (Hset : call_setter (make_setter m) (AnyVal (m_type m) repr) fr
                   = mkRes (inr tt) fr1 []).
    { rewrite <- (setSignal_run _ s _ _ (proj2 Hreg)).
      apply setSignal_registered, Hreg. }
    rewrite (bind_run _ _ _ _ _ _ Hset). apply res_eta. }
  assert (Hl1 : length (data_ fr1) = sizeof_DataT fr).
  { cbn. rewrite length_store_at; unfold member_of_DataT, block_ok in *; lia. }
  assert (Hd : data_ published = data_ fr1)
    by (unfold published; rewrite Hpub; apply notifyCallbacks_data).
  assert (Hsub1 : threaded_subscription fr1 i c (mkThreadedData Running [] st))
    by exact Hsub.
  apply notifyCallbacks_pushes in Hsub1.
  rewrite <- Hpub in Hsub1. fold published in Hsub1.
  assert (Hsnap : serializer_ fr1 (data_ fr1) = data_ fr1).
  { change (serializer_ fr1) with (serializer_ fr). rewrite Hser.
    apply default_serializer_copy, Hl1. }
  rewrite Hsnap in Hsub1. unfold push in Hsub1; cbn [worker queue stop app] in Hsub1.
  destruct (worker_step_pops _ _ _ _ _ _ Hsub1) as (He & _ & _).
  rewrite He, Hd. split.
  - rewrite deliver_nonempty; [rewrite Hl1; reflexivity |].
    intros Hnil. rewrite Hnil in Hl1. cbn in Hl1.
    pose proof (sizeof_pos (m_type m)). unfold member_of_DataT in Hin. lia.
  - cbn. unfold make_getter. f_equal.
    rewrite <- Hlen. apply load_store_at.
    unfold member_of_DataT, block_ok in *. lia.
Qed.

Lemma snapshot_carries_written_value_witness :
  emitted (worker_step 2
             (final (setSignalWithPublish "value"
                       (AnyVal TInt32 [x63; x00; x00; x00])
                       (frame_at subscribed_sys 0))))
  = [SnapshotCall 2 9 value99 12].
Proof.
  destruct (snapshot_carries_written_value (frame_at subscribed_sys 0)
              "value" MyData_value (AnyVal TInt32 [x63; x00; x00; x00])
              2 (mkSnapshotCallback 9) false) as [He _].
  - split; vm_compute; reflexivity.
  - vm_compute. lia.
  - vm_compute; reflexivity.
  - split; vm_compute; reflexivity.
  - eexists. split; reflexivity.
  - vm_compute; reflexivity.
  - rewrite He. vm_compute; reflexivity.
Defined.

(** [deserializeWithPublish] publishes whenever the installed
    deserializer accepts the buffer, whatever boolean it then returns:
    the subscribers are notified of the data the deserializer wrote, and
    the result only tells whether the buffer had [sizeof(DataT)] bytes.
    When the deserializer throws, its exception leaves the call, the
    frame is unchanged and nobody is notified. *)
Theorem deserializeWithPublish_publishes (fr : Frame) (raw : list byte) :
  (forall d, deserializer_ fr (data_ fr) raw = inr d ->
     let r := notifyCallbacks (set_data d fr) in
     deserializeWithPublish raw fr
     = mkRes (inr (bool_decide (length raw = sizeof_DataT fr)))
             (final r) (emitted r)) /\
  (forall e, deserializer_ fr (data_ fr) raw = inl e ->
     deserializeWithPublish raw fr = mkRes (inl e) fr []).
Proof.
  split.
  - intros d Hd r. unfold deserializeWithPublish.
    assert (Hde : deserialize raw fr = mkRes (inr tt) (set_data d fr) []).
    { unfold deserialize.
      rewrite (bind_run _ _ fr fr fr []) by reflexivity.
      rewrite Hd. reflexivity. }
    rewrite (bind_run _ _ _ _ _ _ Hde).
    assert (Hn : notifyCallbacks (set_data d fr)
                 = mkRes (inr tt) (final r) (emitted r)).
    { unfold r. rewrite <- (notifyCallbacks_returns (set_data d fr)).
      symmetry. apply res_eta. }
    rewrite (bind_run _ _ _ _ _ _ Hn).
    rewrite (bind_run _ _ (final r) (final r) (final r) []) by reflexivity.
    cbn. rewrite app_nil_r. reflexivity.
  - intros e He. unfold deserializeWithPublish.
    assert (Hde : deserialize raw fr = mkRes (inl e) fr []).
    { unfold deserialize.
      rewrite (bind_run _ _ fr fr fr []) by reflexivity.
      rewrite He. reflexivity. }
    apply (bind_run_throw _ _ _ _ _ _ Hde).
Qed.

Lemma deserializeWithPublish_publishes_witness :
  outcome (deserializeWithPublish [x07]
             (final (setDeserializer tolerant_deserializer
                       (frame_at subscribed_sys 0)))) = inr false /\
  emitted (deserializeWithPublish [x07]
             (final (setDeserializer tolerant_deserializer
                       (frame_at subscribed_sys 0))))
  = [DirectCall 1 7 (repeat x00 12); DirectCall 3 8 (repeat x00 12)].
Proof.
  destruct (deserializeWithPublish_publishes
              (final (setDeserializer tolerant_deserializer
                        (frame_at subscribed_sys 0))) [x07]) as [Hok _].
  rewrite (Hok (repeat x00 12)) by (vm_compute; reflexivity).
  split; vm_compute; reflexivity.
Defined.

(** The signals and the serialized form are two views of one block: a
    signal read after [deserialize(buf)] gives the bytes of [buf] at the
    member's offset, and [serialize()] after [setSignal] gives the block
    with the value's bytes put at the member's offset and every other
    byte as it was. *)
Theorem signals_view_the_block (fr : Frame) (s : string) (m : Member)
  (buf repr : list byte) :
  default_codec fr ->
  block_ok fr ->
  registered fr s m ->
  member_of_DataT m fr ->
  (length buf = sizeof_DataT fr ->
   outcome ((deserialize buf ;; getSignal s) fr)
   = inr (AnyVal (m_type m)
            (load_at (m_offset m) (sizeof (m_type m)) buf))) /\
  (length repr = sizeof (m_type m) ->
   outcome ((setSignal s (AnyVal (m_type m) repr) ;; serialize) fr)
   = inr (store_at (m_offset m) repr (data_ fr))).
Proof.
  intros Hdef Hblk Hreg Hin. split.
  - intros Hlen.
    rewrite (bind_run _ _ _ _ _ _ (deserialize_default_ok _ _ Hdef Hblk Hlen)).
    rewrite (getSignal_registered (set_data buf fr) s m) by apply Hreg.
    reflexivity.
  - intros Hlen.
    rewrite (bind_run _ _ _ _ _ _ (setSignal_registered _ _ _ repr Hreg)).
    rewrite serialize_default; [reflexivity | exact Hdef |].
    unfold block_ok; cbn. rewrite length_store_at; [exact Hblk |].
    unfold member_of_DataT, block_ok in *. lia.
Qed.

Lemma signals_view_the_block_witness :
  outcome ((deserialize value99 ;; getSignal "value") (FrameImpl "SharedFrame"))
    = inr (AnyVal TInt32 [x63; x00; x00; x00]) /\
  outcome ((setSignal "value" (AnyVal TInt32 [x2a; x00; x00; x00]) ;;
            serialize) (FrameImpl "SharedFrame"))
    = inr value42.
Proof.
  destruct (signals_view_the_block (FrameImpl "SharedFrame") "value"
              MyData_value value99 [x2a; x00; x00; x00]) as [Hget Hser].
  - split; reflexivity.
  - reflexivity.
  - split; vm_compute; reflexivity.
  - unfold member_of_DataT; cbn. lia.
  - split; [apply Hget; reflexivity | apply Hser; reflexivity].
Defined.

(** ** The registries: FrameBus, FactoryRegistry, IMethod *)

(** The bus holds one frame per name, the one registered last:
    [registerFrame] replaces what the name stood for, [unregisterFrame]
    makes [getFrame] answer [nullptr], and neither touches the other
    names. *)
Theorem FrameBus_register_get (s : Sys) (name other : string)
  (p q : FramePtr) :
  outcome ((registerFrame name p ;; registerFrame name q ;; getFrame name) s)
    = inr (Some q) /\
  outcome ((registerFrame name p ;; unregisterFrame name ;; getFrame name) s)
    = inr None /\
  (other <> name ->
   outcome ((registerFrame name p ;; getFrame other) s)
     = outcome (getFrame other s) /\
   outcome ((unregisterFrame name ;; getFrame other) s)
     = outcome (getFrame other s)).
Proof.
  split; [| split].
  - cbn. f_equal. apply lookup_insert_eq.
  - cbn. f_equal. apply lookup_delete_eq.
  - intros Hne. split; cbn; f_equal.
    + apply lookup_insert_ne. congruence.
    + apply lookup_delete_ne. congruence.
Qed.

Lemma FrameBus_register_get_witness :
  outcome ((registerFrame "SharedFrame" 0 ;; getFrame "OtherFrame") Client1)
    = outcome (getFrame "OtherFrame" Client1) /\
  outcome ((unregisterFrame "SharedFrame" ;; getFrame "OtherFrame") Client1)
    = outcome (getFrame "OtherFrame" Client1).
Proof.
  destruct (FrameBus_register_get Client1 "SharedFrame" "OtherFrame" 0 1)
    as (_ & _ & Hother).
  apply Hother. discriminate.
Defined.

Lemma registerType_fresh {Base} (r : FactoryRegistry Base)
  (typeName : string) (creator : string -> Base) :
  creators_ r !! typeName = None ->
  registerType typeName creator r
  = mkRes (inr true)
          (mkFactoryRegistry (<[typeName := creator]> (creators_ r))) [].
Proof.
  intros H. unfold registerType.
  rewrite (bind_run _ _ r r r []) by reflexivity.
  rewrite H. reflexivity.
Qed.

Lemma registerType_taken {Base} (r : FactoryRegistry Base)
  (typeName : string) (creator c0 : string -> Base) :
  creators_ r !! typeName = Some c0 ->
  registerType typeName creator r = mkRes (inr false) r [].
Proof.
  intros H. unfold registerType.
  rewrite (bind_run _ _ r r r []) by reflexivity.
  rewrite H. reflexivity.
Qed.

Lemma create_run {Base} (r : FactoryRegistry Base)
  (typeName instanceName : string) :
  create typeName instanceName r
  = mkRes (inr (match creators_ r !! typeName with
                | Some creator =>
                    Some (creator (if empty_name instanceName then typeName
                                   else instanceName))
                | None => None
                end)) r [].
Proof.
  unfold create. rewrite (bind_run _ _ r r r []) by reflexivity.
  destruct (creators_ r !! typeName); reflexivity.
Qed.

(** In the factory the first registration of a type name wins: a second
    [registerType] under the name returns [false] and [create] keeps
    building with the first creator, handing it the instance name or,
    when that is empty, the type name.  For a name never registered
    [create] returns [nullptr] and [contains] answers [false]. *)
Theorem FactoryRegistry_first_registration_wins {Base}
  (r : FactoryRegistry Base) (typeName instanceName : string)
  (c1 c2 : string -> Base) :
  creators_ r !! typeName = None ->
  let realName := if empty_name instanceName then typeName
                  else instanceName in
  (outcome (create typeName instanceName r) = inr None /\
   outcome (contains typeName r) = inr false) /\
  outcome ((registerType typeName c1 ;; registerType typeName c2) r)
    = inr false /\
  outcome ((registerType typeName c1 ;; registerType typeName c2 ;;
            create typeName instanceName) r)
    = inr (Some (c1 realName)) /\
  outcome ((registerType typeName c1 ;; registerType typeName c2 ;;
            contains typeName) r)
    = inr true.
Proof.
  intros H realName.
  set (r1 := mkFactoryRegistry (<[typeName := c1]> (creators_ r))).
  assert (H1 : creators_ r1 !! typeName = Some c1)
    by (cbn; apply lookup_insert_eq).
  pose proof (registerType_fresh r typeName c1 H) as Hfirst. fold r1 in Hfirst.
  pose proof (registerType_taken r1 typeName c2 c1 H1) as Hsecond.
  split; [| split; [| split]].
  - split.
    + rewrite create_run, H. reflexivity.
    + cbn. f_equal. apply bool_decide_eq_false_2.
      rewrite H. intros [x Hx]. discriminate.
  - rewrite (bind_run _ _ _ _ _ _ Hfirst), Hsecond. reflexivity.
  - rewrite (bind_run _ _ _ _ _ _ Hfirst), (bind_run _ _ _ _ _ _ Hsecond).
    rewrite create_run, H1. reflexivity.
  - rewrite (bind_run _ _ _ _ _ _ Hfirst), (bind_run _ _ _ _ _ _ Hsecond).
    cbn. f_equal. apply bool_decide_eq_true_2.
    rewrite lookup_insert_eq. eauto.
Qed.

Lemma FactoryRegistry_first_registration_wins_witness :
  outcome ((registerType "FrameImpl" (fun name => (1, name)) ;;
            registerType "FrameImpl" (fun name => (2, name)) ;;
            create "FrameImpl" "") (mkFactoryRegistry ∅))
  = inr (Some (1, "FrameImpl")).
Proof.
  apply (FactoryRegistry_first_registration_wins
           (mkFactoryRegistry ∅) "FrameImpl" ""
           (fun name => (1, name)) (fun name => (2, name))).
  reflexivity.
Defined.

(** The flag [AutoRegister<Derived, Base>::registered_] is [true]
    whether or not the registration took place: with the static name
    free, [Derived] is registered and [create] builds it; with the name
    already taken, the registry is left as it was, [create] under the
    name still builds with the earlier creator, and the flag is [true]
    all the same. *)
Theorem AutoRegister_flag (Base : Type) (r : FactoryRegistry Base)
  (staticName : string) (createInstance : string -> Base) :
  outcome (AutoRegister_registered_ staticName createInstance r) = inr true /\
  (creators_ r !! staticName = None ->
   outcome ((AutoRegister_registered_ staticName createInstance ;;
             create staticName "") r)
   = inr (Some (createInstance staticName))) /\
  (forall c0, creators_ r !! staticName = Some c0 ->
   AutoRegister_registered_ staticName createInstance r
     = mkRes (inr true) r [] /\
   outcome ((AutoRegister_registered_ staticName createInstance ;;
             create staticName "") r)
   = inr (Some (c0 staticName))).
Proof.
  unfold AutoRegister_registered_.
  destruct (creators_ r !! staticName) as [c0 |] eqn:H.
  - pose proof (registerType_taken r staticName createInstance c0 H) as Hreg.
    split; [rewrite (bind_run _ _ _ _ _ _ Hreg); reflexivity |].
    split; [discriminate |]. intros c0' [= <-].
    assert (Hflag : (registerType staticName createInstance ;; ret true) r
                    = mkRes (inr true) r [])
      by (rewrite (bind_run _ _ _ _ _ _ Hreg); reflexivity).
    split; [exact Hflag |].
    rewrite (bind_run _ _ _ _ _ _ Hflag), create_run, H. reflexivity.
  - pose proof (registerType_fresh r staticName createInstance H) as Hreg.
    split; [rewrite (bind_run _ _ _ _ _ _ Hreg); reflexivity |].
    split; [| discriminate]. intros _.
    assert (Hflag : (registerType staticName createInstance ;; ret true) r
                    = mkRes (inr true)
                        (mkFactoryRegistry
                           (<[staticName := createInstance]> (creators_ r)))
                        [])
      by (rewrite (bind_run _ _ _ _ _ _ Hreg); reflexivity).
    rewrite (bind_run _ _ _ _ _ _ Hflag), create_run. cbn [creators_].
    rewrite lookup_insert_eq. reflexivity.
Qed.

Lemma AutoRegister_flag_witness :
  AutoRegister_registered_ "FrameImpl" (fun name => (2, name))
    (mkFactoryRegistry {[ "FrameImpl" := fun name => (1, name) ]})
  = mkRes (inr true)
      (mkFactoryRegistry {[ "FrameImpl" := fun name => (1, name) ]}) [] /\
  outcome ((AutoRegister_registered_ "FrameImpl" (fun name => (2, name)) ;;
            create "FrameImpl" "")
             (mkFactoryRegistry {[ "FrameImpl" := fun name => (1, name) ]}))
  = inr (Some (1, "FrameImpl")).
Proof.
  destruct (AutoRegister_flag _
              (mkFactoryRegistry {[ "FrameImpl" := fun name => (1, name) ]})
              "FrameImpl" (fun name => (2, name)))
    as (_ & _ & Htaken).
  apply (Htaken (fun name => (1, name))).
  vm_compute; reflexivity.
Defined.

Lemma invoke_run (self : IMethod) (methodName : string) (args : list any) :
  invoke methodName args self
  = mkRes (match methods_ self !! methodName with
           | None => inl (MethodNotRegistered methodName)
           | Some method => method args
           end) self [].
Proof.
  unfold invoke. rewrite (bind_run _ _ self self self []) by reflexivity.
  destruct (methods_ self !! methodName) as [method |]; [| reflexivity].
  destruct (method args); reflexivity.
Qed.

(** In the method table the last registration of a name wins:
    [registerMethod] replaces the function the name stood for, [invoke]
    then runs the new one on the arguments and hands back what it
    returns or throws, and the other names are not affected.  [invoke]
    on a name never registered throws the [runtime_error] naming the
    method and leaves the table as it was. *)
Theorem IMethod_last_registration_wins (self : IMethod)
  (name other : string) (f g : list any -> exn + any) (args : list any) :
  outcome ((registerMethod name f ;; registerMethod name g ;;
            invoke name args) self) = g args /\
  (other <> name ->
   outcome ((registerMethod name f ;; invoke other args) self)
     = outcome (invoke other args self)) /\
  (methods_ self !! name = None ->
   invoke name args self = mkRes (inl (MethodNotRegistered name)) self []).
Proof.
  split; [| split].
  - rewrite (bind_run _ _ self
               (mkIMethod (<[name := f]> (methods_ self))) tt [])
      by reflexivity.
    rewrite (bind_run _ _ _
               (mkIMethod (<[name := g]> (<[name := f]> (methods_ self))))
               tt [])
      by reflexivity.
    rewrite invoke_run. cbn [outcome methods_].
    rewrite lookup_insert_eq. reflexivity.
  - intros Hne.
    rewrite (bind_run _ _ self
               (mkIMethod (<[name := f]> (methods_ self))) tt [])
      by reflexivity.
    rewrite !invoke_run. cbn [outcome methods_].
    rewrite lookup_insert_ne by congruence. reflexivity.
  - intros H. rewrite invoke_run, H. reflexivity.
Qed.

Lemma IMethod_last_registration_wins_witness :
  outcome ((registerMethod "get" (fun _ => inr AnyEmpty) ;;
            invoke "set" []) (mkIMethod ∅))
    = outcome (invoke "set" [] (mkIMethod ∅)) /\
  invoke "set" [] (mkIMethod ∅)
    = mkRes (inl (MethodNotRegistered "set")) (mkIMethod ∅) [].
Proof.
  destruct (IMethod_last_registration_wins (mkIMethod ∅) "get" "set"
              (fun _ => inr AnyEmpty) (fun _ => inr AnyEmpty) [])
    as (_ & Hother & _).
  destruct (IMethod_last_registration_wins (mkIMethod ∅) "set" "get"
              (fun _ => inr AnyEmpty) (fun _ => inr AnyEmpty) [])
    as (_ & _ & Hnone).
  split; [apply Hother; discriminate | apply Hnone; reflexivity].
Defined.

(** ** Ports: setting and getting a signal *)

Lemma setSignal_refused (fr : Frame) (signal : string) (v : any) :
  unregistered fr signal \/
  (exists m, registered fr signal m /\
             forall repr, v <> AnyVal (m_type m) repr) ->
  exists e,
    setSignal signal v fr = mkRes (inl e) fr [] /\
    setSignalWithPublish signal v fr = mkRes (inl e) fr [].
Proof.
  intros [Hun | (m & [_ Hs] & Hty)].
  - exists (UnknownSignal signal). split.
    + apply setSignal_unregistered, Hun.
    + apply setSignalWithPublish_unregistered, Hun.
  - exists TypeMismatch.
    assert (Hcast : any_cast (m_type m) v = inl TypeMismatch).
    { destruct v as [| ty repr]; [reflexivity |]. cbn.
      destruct (decide (ty = m_type m)) as [-> | _]; [| reflexivity].
      destruct (Hty repr eq_refl). }
    assert (Hset := call_setter_mismatch fr m v Hcast).
    rewrite (setSignal_run _ _ _ _ Hs), (setSignalWithPublish_run _ _ _ _ Hs).
    rewrite (bind_run_throw _ _ _ _ _ _ Hset). auto.
Qed.

(** A port's signal setter that fails fails cleanly: for a signal the
    frame does not have, or a value that is not of the signal's type,
    [setSignalToFrame] and [setSignalToFrameWithPublish] return [false]
    with the frame, the port and the bus exactly as before and no
    subscriber notified. *)
Theorem port_set_failure_changes_nothing (s : Sys)
  (frameName signal : string) (p : FramePtr) (fr : Frame) (v : any) :
  connected s frameName p fr ->
  unregistered fr signal \/
  (exists m, registered fr signal m /\
             forall repr, v <> AnyVal (m_type m) repr) ->
  setSignalToFrame frameName signal v s = mkRes (inr false) s [] /\
  setSignalToFrameWithPublish frameName signal v s = mkRes (inr false) s [].
Proof.
  intros Hc Hbad. destruct (setSignal_refused _ _ _ Hbad) as (e & Hset & Hpub).
  pose proof Hc as [_ Hp].
  rewrite (setSignalToFrame_connected _ _ _ _ Hc).
  rewrite (setSignalToFrameWithPublish_connected _ _ _ _ Hc).
  assert (Hon : on_frame p (setSignal signal v) s = mkRes (inl e) s []).
  { rewrite (on_frame_at _ _ _ _ Hp), Hset. cbn.
    rewrite (insert_id _ _ _ Hp), heap_eta. reflexivity. }
  assert (Hon' : on_frame p (setSignalWithPublish signal v) s
                 = mkRes (inl e) s []).
  { rewrite (on_frame_at _ _ _ _ Hp), Hpub. cbn.
    rewrite (insert_id _ _ _ Hp), heap_eta. reflexivity. }
  unfold catch_all.
  rewrite (bind_run_throw _ _ _ _ _ _ Hon), (bind_run_throw _ _ _ _ _ _ Hon').
  split; reflexivity.
Qed.

Lemma port_set_failure_changes_nothing_witness :
  setSignalToFrameWithPublish "SharedFrame" "speed"
    (AnyVal TInt32 [x2a; x00; x00; x00]) subscribed_sys
  = mkRes (inr false) subscribed_sys [].
Proof.
  apply (port_set_failure_changes_nothing subscribed_sys "SharedFrame"
           "speed" 0 (frame_at subscribed_sys 0)).
  - apply subscribed_sys_connected.
  - left. split; vm_compute; reflexivity.
Defined.

(** Through a port, the typed getter [getSignalFromFrame<T>] gives back
    the value [setSignalToFrame] stored, for [T] the type of the
    signal's member. *)
Theorem port_set_then_get (s : Sys) (frameName signal : string)
  (p : FramePtr) (fr : Frame) (m : Member) (repr : list byte) :
  connected s frameName p fr ->
  registered fr signal m ->
  member_of_DataT m fr ->
  block_ok fr ->
  length repr = sizeof (m_type m) ->
  outcome (setSignalToFrame frameName signal (AnyVal (m_type m) repr) s)
    = inr true /\
  outcome ((setSignalToFrame frameName signal (AnyVal (m_type m) repr) ;;
            getSignalFromFrame (m_type m) frameName signal) s)
    = inr repr.
Proof.
  intros Hc Hreg Hin Hblk Hlen.
  pose proof Hc as [Hf Hp].
  set (fr1 := set_data (store_at (m_offset m) repr (data_ fr)) fr).
  assert (Hr : setSignalToFrame frameName signal (AnyVal (m_type m) repr) s
               = mkRes (inr true)
                   (mkSys (this s) (bus s) (<[p := fr1]> (heap s))) []).
  { rewrite (setSignalToFrame_connected _ _ _ _ Hc).
    assert (Hon : on_frame p (setSignal signal (AnyVal (m_type m) repr)) s
                  = mkRes (inr tt)
                      (mkSys (this s) (bus s) (<[p := fr1]> (heap s))) []).
    { rewrite (on_frame_at _ _ _ _ Hp), (setSignal_registered _ _ _ _ Hreg).
      reflexivity. }
    unfold catch_all. rewrite (bind_run _ _ _ _ _ _ Hon). reflexivity. }
  split; [rewrite Hr; reflexivity |].
  rewrite (bind_run _ _ _ _ _ _ Hr).
  assert (Hc1 : connected (mkSys (this s) (bus s) (<[p := fr1]> (heap s)))
                  frameName p fr1)
    by (split; [exact Hf | cbn; apply lookup_insert_eq]).
  assert (Hget : getSignalFromFrameAsAny frameName signal
                   (mkSys (this s) (bus s) (<[p := fr1]> (heap s)))
                 = mkRes (inr (AnyVal (m_type m) repr))
                     (mkSys (this s) (bus s)
                        (<[p := fr1]> (<[p := fr1]> (heap s)))) []).
  { rewrite (getSignalFromFrameAsAny_connected _ _ _ _ Hc1).
    rewrite (on_frame_at _ _ fr1) by apply Hc1.
    rewrite (getSignal_registered fr1 signal m) by apply Hreg.
    cbn. unfold make_getter. do 3 f_equal.
    rewrite <- Hlen. apply load_store_at.
    unfold member_of_DataT, block_ok in *. lia. }
  unfold getSignalFromFrame. rewrite (bind_run _ _ _ _ _ _ Hget).
  cbn. destruct (decide (m_type m = m_type m)); [reflexivity | contradiction].
Qed.

Lemma port_set_then_get_witness :
  outcome ((setSignalToFrame "SharedFrame" "value"
              (AnyVal TInt32 [x2a; x00; x00; x00]) ;;
            getSignalFromFrame TInt32 "SharedFrame" "value") example_sys)
  = inr [x2a; x00; x00; x00].
Proof.
  apply (port_set_then_get example_sys "SharedFrame" "value" 0
           (FrameImpl "SharedFrame") MyData_value [x2a; x00; x00; x00]).
  - apply example_sys_connected.
  - split; vm_compute; reflexivity.
  - unfold member_of_DataT; cbn. lia.
  - reflexivity.
  - reflexivity.
Defined.
